(** * ReNet layer (stacked_renet_layer_slim.py): tensors, patch extraction,
      the two recurrent sweeps, and their properties.

    Tensors are modelled the way the tensor library holds them: a tensor is a
    view (storage location, offset, shape, strides) onto a flat storage kept
    in a store.  [unfold], [permute], [view], [split] and indexing only build
    new views; [contiguous], [cat], [zeros] and the recurrent network allocate
    fresh storages.  Python exceptions are the [Raise] outcome of a small
    state-and-error monad. *)

From Stdlib Require Import ZArith Lia List Bool Arith.
From Stdlib Require Import QArith Reals Lra.
From stdpp Require Import base list strings gmap pretty.

Set Default Proof Using "Type".

(** ** Exceptions and results *)

Inductive PyError : Type :=
| RuntimeError
| AttributeError
| TypeError
| IndexError
| ValueError.

Inductive result (X : Type) : Type :=
| Ok (x : X)
| Raise (e : PyError).
Arguments Ok {X} x.
Arguments Raise {X} e.

Definition result_bind {X Y} (r : result X) (k : X -> result Y) : result Y :=
  match r with
  | Ok x => k x
  | Raise e => Raise e
  end.

(** ** Shapes, strides and multi-indices *)

Definition numel (sh : list nat) : nat := foldr Nat.mul 1 sh.

(** Row-major strides of a freshly allocated tensor of shape [sh]. *)
Fixpoint contiguous_strides (sh : list nat) : list nat :=
  match sh with
  | [] => []
  | _ :: sh' => numel sh' :: contiguous_strides sh'
  end.

(** Sum of index times stride. *)
Fixpoint dot (idx st : list nat) : nat :=
  match idx, st with
  | i :: idx', s :: st' => i * s + dot idx' st'
  | _, _ => 0
  end.

(** Row-major position of the multi-index [idx] in a tensor of shape [sh]. *)
Definition ravel (sh idx : list nat) : nat := dot idx (contiguous_strides sh).

Definition in_bounds (sh idx : list nat) : Prop := Forall2 lt idx sh.

(** All multi-indices of shape [sh], in row-major order. *)
Fixpoint indices (sh : list nat) : list (list nat) :=
  match sh with
  | [] => [[]]
  | n :: sh' => flat_map (fun i => map (cons i) (indices sh')) (seq 0 n)
  end.

(** ** Tensors as views *)

Record Tensor : Type := mkTensor {
  storage : nat;
  offset : nat;
  shape : list nat;
  stride : list nat
}.

Definition address (t : Tensor) (idx : list nat) : nat :=
  offset t + dot idx (stride t).

(** [x.size(k)] *)
Definition size (t : Tensor) (k : nat) : result nat :=
  match shape t !! k with
  | Some n => Ok n
  | None => Raise IndexError
  end.

(** [x.unfold(dim, sz, step)]: a view whose dimension [dim] counts the
    windows and whose new last dimension runs inside a window.  The library
    rejects a window larger than the dimension and a step of zero; windows
    that do not fit at the end are dropped. *)
Definition unfold (t : Tensor) (dim sz step : nat) : result Tensor :=
  match shape t !! dim, stride t !! dim with
  | Some len, Some s =>
      if len <? sz then Raise RuntimeError
      else if step =? 0 then Raise RuntimeError
      else Ok (mkTensor (storage t) (offset t)
                 (<[dim := (len - sz) / step + 1]> (shape t) ++ [sz])
                 (<[dim := step * s]> (stride t) ++ [s]))
  | _, _ => Raise IndexError
  end.

(** [dims] is a permutation of [0 .. n-1]. *)
Definition is_perm (n : nat) (dims : list nat) : bool :=
  (length dims =? n) && forallb (fun k => existsb (Nat.eqb k) dims) (seq 0 n).

(** [x.permute(dims)] *)
Definition permute (t : Tensor) (dims : list nat) : result Tensor :=
  if is_perm (length (shape t)) dims then
    Ok (mkTensor (storage t) (offset t)
          (map (fun k => nth k (shape t) 0) dims)
          (map (fun k => nth k (stride t) 0) dims))
  else Raise RuntimeError.

(** The library's contiguity test: walking from the last dimension, every
    dimension of size other than one must have the row-major stride; a
    tensor without elements is contiguous. *)
Fixpoint strides_match (sh st : list nat) : bool :=
  match sh, st with
  | [], [] => true
  | n :: sh', s :: st' => ((n =? 1) || (s =? numel sh')) && strides_match sh' st'
  | _, _ => false
  end.

Definition is_contiguous (t : Tensor) : bool :=
  (numel (shape t) =? 0) || strides_match (shape t) (stride t).

(** Size inference of [view]: at most one entry may be [-1]; it stands for
    the quotient of the element count by the product of the others. *)
Definition known_size (sizes : list Z) : nat :=
  numel (map Z.to_nat (List.filter (fun z => negb (z =? -1)%Z) sizes)).

Definition infer_size (sizes : list Z) (n : nat) : result (list nat) :=
  if existsb (fun z => (z <? -1)%Z) sizes then Raise RuntimeError
  else
    let known := known_size sizes in
    match length (List.filter (fun z => (z =? -1)%Z) sizes) with
    | 0 => if known =? n then Ok (map Z.to_nat sizes) else Raise RuntimeError
    | 1 => if known =? 0 then Raise RuntimeError
           else if n mod known =? 0
                then Ok (map (fun z => if (z =? -1)%Z then n / known
                                       else Z.to_nat z) sizes)
                else Raise RuntimeError
    | _ => Raise RuntimeError
    end.

(** [x.view(sizes)], as the layer uses it: on a contiguous tensor. *)
Definition view (t : Tensor) (sizes : list Z) : result Tensor :=
  if is_contiguous t then
    result_bind (infer_size sizes (numel (shape t))) (fun sh =>
      Ok (mkTensor (storage t) (offset t) sh (contiguous_strides sh)))
  else Raise RuntimeError.

(** [x[i]]: drop the first dimension at position [i]. *)
Definition select0 (t : Tensor) (i : nat) : result Tensor :=
  match shape t, stride t with
  | n :: sh, s :: st =>
      if i <? n then Ok (mkTensor (storage t) (offset t + i * s) sh st)
      else Raise IndexError
  | _, _ => Raise IndexError
  end.

(** [torch.split(x, sz, dim)]: views of [sz] consecutive positions along
    [dim], the last one shorter when [sz] does not divide the length; one
    empty chunk when the dimension is empty. *)
Definition split (t : Tensor) (sz dim : nat) : result (list Tensor) :=
  match shape t !! dim, stride t !! dim with
  | Some len, Some s =>
      if sz =? 0 then (if len =? 0 then Ok [t] else Raise RuntimeError)
      else
        Ok (map (fun i => mkTensor (storage t) (offset t + i * sz * s)
                            (<[dim := Nat.min sz (len - i * sz)]> (shape t))
                            (stride t))
                (seq 0 (Nat.max 1 ((len + sz - 1) / sz))))
  | _, _ => Raise IndexError
  end.

(** Position of [i] in the concatenation of blocks of the given lengths:
    which block, and where inside it. *)
Fixpoint locate (lens : list nat) (i : nat) : nat * nat :=
  match lens with
  | [] => (0, i)
  | n :: rest =>
      if i <? n then (0, i)
      else let '(j, r) := locate rest (i - n) in (S j, r)
  end.

(** Two shapes agree everywhere except possibly at [dim]. *)
Definition same_shape_except (dim : nat) (sh1 sh2 : list nat) : bool :=
  (length sh1 =? length sh2) &&
  forallb (fun k => (k =? dim) || (nth k sh1 0 =? nth k sh2 0))
          (seq 0 (length sh1)).

(** ** The store and the monad of tensor programs *)

Section Torch.

Declare Scope monad_scope.
Local Open Scope monad_scope.

Context {A : Type} (zero : A).
(** State of the library's random generator. *)
Context {G : Type}.

Record State : Type := mkState {
  store : list (list A);
  gen : G
}.

(** A tensor program runs from a state to a value or an exception, and a
    state: what was allocated before an exception stays allocated. *)
Definition M (X : Type) : Type := State -> result X * State.

Definition ret {X} (x : X) : M X := fun s => (Ok x, s).

Definition bind {X Y} (c : M X) (k : X -> M Y) : M Y :=
  fun s => match c s with
           | (Ok x, s') => k x s'
           | (Raise e, s') => (Raise e, s')
           end.

Notation "x <- c ;; k" := (bind c (fun x => k))
  (at level 100, c at next level, right associativity) : monad_scope.

Definition lift {X} (r : result X) : M X := fun s => (r, s).

Definition get_state : M State := fun s => (Ok s, s).

(** A fresh storage holding [data]; existing storages are not touched. *)
Definition alloc (data : list A) : M nat :=
  fun s => (Ok (length (store s)), mkState (store s ++ [data]) (gen s)).

Definition set_gen (g : G) : M unit :=
  fun s => (Ok tt, mkState (store s) g).

(** Element of [t] at multi-index [idx]. *)
Definition read (s : State) (t : Tensor) (idx : list nat) : A :=
  nth (address t idx) (nth (storage t) (store s) []) zero.

(** A fresh row-major tensor of shape [sh] whose element at [idx] is [f idx]. *)
Definition tabulate (sh : list nat) (f : list nat -> A) : M Tensor :=
  bind (alloc (map f (indices sh))) (fun loc =>
  ret (mkTensor loc 0 sh (contiguous_strides sh))).

(** [x.contiguous()]: the tensor itself when it already is contiguous, a
    fresh row-major copy otherwise. *)
Definition contiguous (t : Tensor) : M Tensor :=
  if is_contiguous t then ret t
  else bind get_state (fun s => tabulate (shape t) (read s t)).

(** [torch.zeros(sh)] *)
Definition zeros (sh : list nat) : M Tensor :=
  tabulate sh (fun _ => zero).

(** [x.to(device)]: every tensor of the model lives on the one device, where
    the call returns its receiver. *)
Definition to_device (t : Tensor) : M Tensor := ret t.

(** [torch.cat(ts, dim)]: a fresh tensor; the inputs must agree on every
    dimension but [dim]. *)
Definition cat (ts : list Tensor) (dim : nat) : M Tensor :=
  match ts with
  | [] => lift (Raise RuntimeError)
  | t0 :: _ =>
      if (dim <? length (shape t0)) &&
         forallb (fun t => same_shape_except dim (shape t0) (shape t)) ts
      then
        let lens := map (fun t => nth dim (shape t) 0) ts in
        bind get_state (fun s =>
        tabulate (<[dim := foldr Nat.add 0 lens]> (shape t0))
          (fun idx =>
             let '(j, r) := locate lens (nth dim idx 0) in
             read s (nth j ts t0) (<[dim := r]> idx)))
      else lift (Raise RuntimeError)
  end.

(** ** The recurrent networks of the library *)

(** The library's recurrent classes. *)
Inductive RnnMode : Type := RNN_TANH | GRU | LSTM.

(** A learnable parameter: a matrix or a vector with its values. *)
Record Param : Type := mkParam {
  pshape : list nat;
  pdata : list A
}.

(** A recurrent module.  [_all_weights] is the module's listing of parameter
    names, one list per layer and direction.  [params], [buffers] and
    [submodules] are the three registries of the library's module class
    ([_parameters], [_buffers], [_modules]); a sub-module is known by its
    name only. *)
Record RNNModule : Type := mkRNN {
  mode : RnnMode;
  input_size : nat;
  hidden_size : nat;
  num_layers : nat;
  bidirectional : bool;
  batch_first : bool;
  dropout : Q;
  bias : bool;
  _all_weights : list (list string);
  params : gmap string Param;
  buffers : gmap string Param;
  submodules : gset string
}.

Definition num_directions (m : RNNModule) : nat :=
  if bidirectional m then 2 else 1.

(** Dropout acts between stacked layers, in training mode only. *)
Definition dropout_active (m : RNNModule) (training : bool) : bool :=
  training && negb (Qle_bool (dropout m) 0) && (1 <? num_layers m).

(** The arithmetic of the recurrent network on one sequence: module,
    training flag, generator state, position in the batch, initial hidden
    (and, for the memory-cell class, cell) vectors of that batch element
    for every layer and direction, and the sequence of feature vectors;
    the result is the sequence of output vectors. *)
Context (rnn_seq : RNNModule -> bool -> G -> nat ->
                   list (list A) -> option (list (list A)) ->
                   list (list A) -> list (list A)).
(** Generator state after a call that drew dropout masks for a batch of the
    given size and sequence length. *)
Context (rnn_gen : RNNModule -> nat -> nat -> G -> G).

(** Initial state handed to a recurrent module: one tensor, or the pair
    (hidden, cell). *)
Inductive Hidden : Type :=
| HTensor (h : Tensor)
| HPair (h c : Tensor).

Definition hidden_ok (m : RNNModule) (n : nat) (t : Tensor) : bool :=
  bool_decide (shape t = [num_directions m * num_layers m; n; hidden_size m]).

(** Rows [k] of the state tensor [t] for batch element [n]. *)
Definition state_rows (s : State) (m : RNNModule) (t : Tensor) (n : nat)
  : list (list A) :=
  map (fun k => map (fun j => read s t [k; n; j]) (seq 0 (hidden_size m)))
      (seq 0 (num_directions m * num_layers m)).

(** The state argument must fit the class: the pair for the memory-cell
    class, one tensor for the others, each of shape
    (directions * layers, batch, hidden). *)
Definition check_hidden (m : RNNModule) (n : nat) (hx : Hidden)
  : result (Tensor * option Tensor) :=
  match mode m, hx with
  | LSTM, HPair h c =>
      if hidden_ok m n h && hidden_ok m n c then Ok (h, Some c)
      else Raise RuntimeError
  | LSTM, HTensor _ => Raise RuntimeError
  | _, HTensor h =>
      if hidden_ok m n h then Ok (h, None) else Raise RuntimeError
  | _, HPair _ _ => Raise RuntimeError
  end.

(** [rnn(input, hx)]: the call of a recurrent module on a 3-D input.  The
    input is laid out (batch, sequence, feature) when [batch_first] holds,
    (sequence, batch, feature) otherwise; the output has the same layout
    with [num_directions * hidden_size] features and is freshly allocated.
    The final state, which the layer discards, is not materialised. *)
Definition rnn_call (m : RNNModule) (training : bool)
    (inp : Tensor) (hx : Hidden) : M Tensor :=
  match shape inp with
  | [d0; d1; f] =>
      let n := if batch_first m then d0 else d1 in
      let len := if batch_first m then d1 else d0 in
      let pos := fun b t k => if batch_first m then [b; t; k] else [t; b; k] in
      if negb (f =? input_size m) then lift (Raise RuntimeError)
      else if len =? 0 then lift (Raise RuntimeError)
      else
        hc <- lift (check_hidden m n hx) ;;
        let '(h, c) := hc in
        s <- get_state ;;
        let outs := map (fun b =>
          rnn_seq m training (gen s) b
            (state_rows s m h b) (option_map (fun c => state_rows s m c b) c)
            (map (fun t => map (fun k => read s inp (pos b t k)) (seq 0 f))
                 (seq 0 len))) (seq 0 n) in
        out <- tabulate (pos n len (num_directions m * hidden_size m))
                 (fun idx =>
                    let '(b, t, k) := (nth 0 idx 0, nth 1 idx 0, nth 2 idx 0) in
                    let '(b, t) := if batch_first m then (b, t) else (t, b) in
                    nth k (nth t (nth b outs []) []) zero) ;;
        _ <- set_gen (if dropout_active m training
                      then rnn_gen m n len (gen s) else gen s) ;;
        ret out
  | _ => lift (Raise RuntimeError)
  end.

(** ** The layer *)

(** A [ReNetLayer] instance.  [training] is the flag the layer inherits from
    the library's module class. *)
Record ReNetLayer : Type := mkLayer {
  window_size : nat * nat;
  rnn_type : string;
  hidden_dim : nat;
  firstVRNN : RNNModule;
  secondHRNN : RNNModule;
  stack_size : nat * nat;
  training : bool
}.

(** [get_init_hidden(self, x, stack_size)] *)
Definition get_init_hidden (self : ReNetLayer) (x : Tensor) (stack : nat)
  : M Hidden :=
  if String.eqb (rnn_type self) "LSTM" then
    n <- lift (size x 1) ;;
    z <- zeros [2 * stack; n; hidden_dim self] ;;
    h0 <- to_device z ;;
    n' <- lift (size x 1) ;;
    z' <- zeros [2 * stack; n'; hidden_dim self] ;;
    c0 <- to_device z' ;;
    ret (HPair h0 c0)
  else
    n <- lift (size x 1) ;;
    z <- zeros [2 * stack; n; hidden_dim self] ;;
    h <- to_device z ;;
    ret (HTensor h).

(** [get_valid_patches(self, x)] *)
Definition get_valid_patches (self : ReNetLayer) (x : Tensor) : M Tensor :=
  u <- lift (unfold x 2 (fst (window_size self)) (fst (window_size self))) ;;
  u <- lift (unfold u 3 (snd (window_size self)) (snd (window_size self))) ;;
  patches <- lift (permute u [0; 2; 3; 1; 4; 5]) ;;
  c <- contiguous patches ;;
  s0 <- lift (size patches 0) ;;
  s1 <- lift (size patches 1) ;;
  s2 <- lift (size patches 2) ;;
  v <- lift (view c [Z.of_nat s0; Z.of_nat s1; Z.of_nat s2; (-1)%Z]) ;;
  lift (permute v [0; 3; 1; 2]).

(** [apply_one_direction(self, x, rnn, stack_size)] *)
Definition apply_one_direction (self : ReNetLayer) (x : Tensor)
    (rnn : RNNModule) (stack : nat) : M Tensor :=
  parts <- lift (split x 1 0) ;;
  _in <- cat parts 1 ;;
  hn <- get_init_hidden self _in stack ;;
  in0 <- lift (select0 _in 0) ;;
  out <- rnn_call rnn (training self) in0 hn ;;
  c <- contiguous out ;;
  s0 <- lift (size out 0) ;;
  s1 <- lift (size out 1) ;;
  s2 <- lift (size out 2) ;;
  out <- lift (view c [1%Z; Z.of_nat s0; Z.of_nat s1; Z.of_nat s2]) ;;
  b <- lift (size x 1) ;;
  parts <- lift (split out b 1) ;;
  cat parts 0.

(** [forward(self, x)] *)
Definition forward (self : ReNetLayer) (x : Tensor) : M Tensor :=
  patches <- get_valid_patches self x ;;
  input_array <- lift (permute patches [2; 0; 3; 1]) ;;
  vertical_results <-
    apply_one_direction self input_array (firstVRNN self)
      (fst (stack_size self)) ;;
  vertical_results <- lift (permute vertical_results [2; 1; 0; 3]) ;;
  feature_map <-
    apply_one_direction self vertical_results (secondHRNN self)
      (snd (stack_size self)) ;;
  feature_map <- lift (permute feature_map [1; 3; 2; 0]) ;;
  ret feature_map.

(** ** Construction and weight initialisation *)

(** [sub in s] on strings. *)
Fixpoint contains (sub s : string) : bool :=
  String.prefix sub s ||
  match s with
  | EmptyString => false
  | String _ s' => contains sub s'
  end.

(** A Python [for] loop whose body updates one object. *)
Fixpoint for_each {X S} (xs : list X) (body : X -> S -> M S) (acc : S) : M S :=
  match xs with
  | [] => ret acc
  | x :: xs' => acc' <- body x acc ;; for_each xs' body acc'
  end.

(** What [Module.__getattr__] resolves a name to: a parameter or a buffer,
    both tensors, or a sub-module. *)
Inductive Attribute : Type :=
| ParameterAttr (v : Param)
| BufferAttr (v : Param)
| ModuleAttr (name : string).

(** [module.__getattr__(p)]: the library's method looks the name up among
    the parameters, then among the buffers, then among the sub-modules, and
    raises when it is in none of the three. *)
Definition module_getattr (m : RNNModule) (p : string) : result Attribute :=
  match params m !! p with
  | Some v => Ok (ParameterAttr v)
  | None =>
      match buffers m !! p with
      | Some v => Ok (BufferAttr v)
      | None =>
          if decide (p ∈ submodules m) then Ok (ModuleAttr p)
          else Raise AttributeError
      end
  end.

(** The module after an in-place update of the parameter named [p]. *)
Definition set_param (m : RNNModule) (p : string) (v : Param) : RNNModule :=
  mkRNN (mode m) (input_size m) (hidden_size m) (num_layers m)
        (bidirectional m) (batch_first m) (dropout m) (bias m)
        (_all_weights m) (<[p := v]> (params m)) (buffers m) (submodules m).

(** The module after an in-place update of the buffer named [p]. *)
Definition set_buffer (m : RNNModule) (p : string) (v : Param) : RNNModule :=
  mkRNN (mode m) (input_size m) (hidden_size m) (num_layers m)
        (bidirectional m) (batch_first m) (dropout m) (bias m)
        (_all_weights m) (params m) (<[p := v]> (buffers m)) (submodules m).

(** A callable given to [apply], as far as the layer uses it.  Called on a
    tensor it works in place: the result is the content of the tensor after
    the call.  Called on a sub-module it runs for its effect on the state. *)
Record Callable : Type := mkCallable {
  call_tensor : Param -> M Param;
  call_module : string -> M unit
}.

(** [fn(a)] for the attribute [a] that module [m] holds under the name
    [p]: the module afterwards. *)
Definition call (fn : Callable) (m : RNNModule) (p : string) (a : Attribute)
  : M RNNModule :=
  match a with
  | ParameterAttr v => v' <- call_tensor fn v ;; ret (set_param m p v')
  | BufferAttr v => v' <- call_tensor fn v ;; ret (set_buffer m p v')
  | ModuleAttr name => _ <- call_module fn name ;; ret m
  end.

(** One of the two loops of [apply]: [fn] is called on what
    [__getattr__] returns for every listed name that contains 'weight'. *)
Definition apply_module (fn : Callable) (m : RNNModule) : M RNNModule :=
  for_each (_all_weights m) (fun layer_p m =>
    for_each layer_p (fun p m =>
      if contains "weight" p then
        a <- lift (module_getattr m p) ;;
        call fn m p a
      else ret m) m) m.

(** [apply(self, fn)] *)
Definition apply (self : ReNetLayer) (fn : Callable) : M ReNetLayer :=
  first <- apply_module fn (firstVRNN self) ;;
  second <- apply_module fn (secondHRNN self) ;;
  ret (mkLayer (window_size self) (rnn_type self) (hidden_dim self)
         first second (stack_size self) (training self)).

(** What a name of the library's namespace [nn] is bound to: one of the
    recurrent classes, or something else.  Of something else the model keeps
    what calling it with the arguments the layer passes does: the call
    raises, or it returns an object that is no recurrent module and has no
    [_all_weights]. *)
Inductive NNAttr : Type :=
| RecurrentClass (cls : RnnMode)
| OtherAttr (called : M unit).

(** The library's namespace [nn]: what each name is bound to, if to
    anything. *)
Context (nn : string -> option NNAttr).
(** The constructor of the library's recurrent classes, with the arguments
    the layer passes: class, input size, hidden size, [bidirectional],
    [batch_first], [num_layers], [dropout], [bias]. *)
Context (rnn_new : RnnMode -> nat -> nat -> bool -> bool -> nat -> Q -> bool ->
                   M RNNModule).
(** [nn.init.xavier_uniform_]: redraws a tensor in place. *)
Context (xavier_uniform_ : Callable).

(** [getattr(nn, name)] *)
Definition nn_getattr (name : string) : result NNAttr :=
  match nn name with
  | Some a => Ok a
  | None => Raise AttributeError
  end.

(** What a call of an attribute of [nn] returns. *)
Inductive Constructed : Type :=
| RecurrentModule (m : RNNModule)
| OtherObject.

(** [a(input_size, hidden_size, bidirectional=..., batch_first=...,
    num_layers=..., dropout=..., bias=...)] for an attribute [a] of [nn]. *)
Definition nn_call (a : NNAttr) (input_size hidden_size : nat)
    (bidirectional batch_first : bool) (num_layers : nat) (dropout : Q)
    (bias : bool) : M Constructed :=
  match a with
  | RecurrentClass cls =>
      m <- rnn_new cls input_size hidden_size bidirectional batch_first
             num_layers dropout bias ;;
      ret (RecurrentModule m)
  | OtherAttr called => _ <- called ;; ret OtherObject
  end.

(** [__init__(self, window_size, hidden_dim, rnn, stack_size, channel_size,
    bias, dropout)].  The base-class initialiser leaves the module in
    training mode.  The final [self.apply] reads [_all_weights] of
    [firstVRNN] before its first loop and of [secondHRNN] before its second:
    on an object that is no recurrent module that lookup raises. *)
Definition __init__ (window_size hidden_dim : nat) (rnn : string)
    (stack_size : nat * nat) (channel_size : nat) (bias : bool) (dropout : Q)
  : M ReNetLayer :=
  let ws := (window_size, window_size) in
  a <- lift (nn_getattr rnn) ;;
  first <- nn_call a (fst ws * snd ws * channel_size) hidden_dim
             true true (fst stack_size) dropout bias ;;
  a' <- lift (nn_getattr rnn) ;;
  second <- nn_call a' (2 * hidden_dim) hidden_dim
              true true (snd stack_size) dropout bias ;;
  match first, second with
  | RecurrentModule first, RecurrentModule second =>
      apply (mkLayer ws rnn hidden_dim first second stack_size true)
            xavier_uniform_
  | RecurrentModule first, OtherObject =>
      _ <- apply_module xavier_uniform_ first ;;
      lift (Raise AttributeError)
  | OtherObject, _ => lift (Raise AttributeError)
  end.

(** ** Facts about shapes and multi-indices *)

Lemma length_indices (sh : list nat) : length (indices sh) = numel sh.
Proof.
  induction sh as [|n sh IH]; [reflexivity|].
  simpl. generalize 0 at 1. induction n as [|n IHn]; intros a; simpl.
  - reflexivity.
  - rewrite length_app, length_map, IH, IHn. reflexivity.
Qed.

Lemma in_bounds_cons_inv (n : nat) (sh idx : list nat) :
  in_bounds (n :: sh) idx ->
  exists i idx', idx = i :: idx' /\ i < n /\ in_bounds sh idx'.
Proof.
  intros H. inversion H; subst. eauto.
Qed.

Lemma ravel_cons (n i : nat) (sh idx : list nat) :
  ravel (n :: sh) (i :: idx) = i * numel sh + ravel sh idx.
Proof. reflexivity. Qed.

Lemma ravel_lt (sh idx : list nat) :
  in_bounds sh idx -> ravel sh idx < numel sh.
Proof.
  revert idx. induction sh as [|n sh IH]; intros idx H.
  - inversion H; subst. cbn. lia.
  - apply in_bounds_cons_inv in H as (i & idx' & -> & Hi & H').
    rewrite ravel_cons. specialize (IH _ H'). change (numel (n :: sh)) with (n * numel sh).
    nia.
Qed.

Lemma in_bounds_numel_pos (sh idx : list nat) :
  in_bounds sh idx -> 0 < numel sh.
Proof. intros H. apply ravel_lt in H. lia. Qed.

Lemma nth_flat_map_seq {X} (g : nat -> list X) (m : nat) (d : X) :
  (forall j, length (g j) = m) ->
  forall n a i r, i < n -> r < m ->
    nth (i * m + r) (flat_map g (seq a n)) d = nth r (g (a + i)) d.
Proof.
  intros Hg. induction n as [|n IH]; intros a i r Hi Hr; [lia|].
  simpl. destruct i as [|i].
  - rewrite Nat.add_0_r. simpl. rewrite app_nth1 by (rewrite Hg; lia). reflexivity.
  - rewrite app_nth2 by (rewrite Hg; simpl; lia).
    rewrite Hg. replace (S i * m + r - m) with (i * m + r) by (simpl; lia).
    rewrite IH by lia. f_equal. f_equal. lia.
Qed.

(** Row-major enumeration: the multi-index found at position [ravel sh idx]
    is [idx]. *)
Lemma nth_indices (sh idx : list nat) :
  in_bounds sh idx -> nth (ravel sh idx) (indices sh) [] = idx.
Proof.
  revert idx. induction sh as [|n sh IH]; intros idx H.
  - inversion H; subst. reflexivity.
  - apply in_bounds_cons_inv in H as (i & idx' & -> & Hi & H').
    rewrite ravel_cons. simpl indices.
    rewrite (nth_flat_map_seq _ (numel sh)).
    + simpl. rewrite (nth_indep _ [] (i :: [])).
      * rewrite (map_nth (cons i)). rewrite IH by assumption. reflexivity.
      * rewrite length_map, length_indices. apply ravel_lt; assumption.
    + intros j. rewrite length_map. apply length_indices.
    + assumption.
    + apply ravel_lt; assumption.
Qed.

Lemma nth_map_indices {X} (f : list nat -> X) (d : X) (sh idx : list nat) :
  in_bounds sh idx -> nth (ravel sh idx) (map f (indices sh)) d = f idx.
Proof.
  intros H.
  rewrite (nth_indep _ d (f [])).
  - rewrite map_nth, nth_indices by assumption. reflexivity.
  - rewrite length_map, length_indices. apply ravel_lt; assumption.
Qed.

(** On a tensor that passes the contiguity test, the strides address the
    row-major position. *)
Lemma strides_match_dot (sh st idx : list nat) :
  strides_match sh st = true -> in_bounds sh idx -> dot idx st = ravel sh idx.
Proof.
  revert st idx. induction sh as [|n sh IH]; intros st idx Hm H.
  - inversion H; subst. reflexivity.
  - apply in_bounds_cons_inv in H as (i & idx' & -> & Hi & H').
    destruct st as [|s st]; [discriminate|]. simpl in Hm.
    apply andb_prop in Hm as [Hs Hm]. rewrite ravel_cons. simpl.
    rewrite (IH _ _ Hm H'). apply orb_prop in Hs as [Hs|Hs].
    + apply Nat.eqb_eq in Hs. subst. assert (i = 0) by lia. subst. lia.
    + apply Nat.eqb_eq in Hs. subst. reflexivity.
Qed.

Lemma strides_match_contiguous (sh : list nat) :
  strides_match sh (contiguous_strides sh) = true.
Proof.
  induction sh as [|n sh IH]; [reflexivity|].
  simpl. rewrite Nat.eqb_refl, orb_true_r. exact IH.
Qed.

Lemma is_contiguous_dot (t : Tensor) (idx : list nat) :
  is_contiguous t = true -> in_bounds (shape t) idx ->
  dot idx (stride t) = ravel (shape t) idx.
Proof.
  intros Hc H. unfold is_contiguous in Hc. apply orb_prop in Hc as [Hc|Hc].
  - apply Nat.eqb_eq in Hc. apply in_bounds_numel_pos in H. lia.
  - apply strides_match_dot; assumption.
Qed.


(** ** Size inference *)

Lemma filter_known_of_nat (ks : list nat) :
  List.filter (fun z => negb (z =? -1)%Z) (map Z.of_nat ks) = map Z.of_nat ks.
Proof.
  induction ks as [|k ks IH]; [reflexivity|].
  cbn [map List.filter]. rewrite IH. destruct (Z.eqb_spec (Z.of_nat k) (-1)); [lia|reflexivity].
Qed.

Lemma filter_minus_one_of_nat (ks : list nat) :
  List.filter (fun z => (z =? -1)%Z) (map Z.of_nat ks) = [].
Proof.
  induction ks as [|k ks IH]; [reflexivity|].
  cbn [map List.filter]. rewrite IH. destruct (Z.eqb_spec (Z.of_nat k) (-1)); [lia|reflexivity].
Qed.

Lemma existsb_negative_of_nat (ks : list nat) :
  existsb (fun z => (z <? -1)%Z) (map Z.of_nat ks) = false.
Proof.
  induction ks as [|k ks IH]; [reflexivity|].
  cbn [map existsb]. rewrite IH. destruct (Z.ltb_spec (Z.of_nat k) (-1)); [lia|reflexivity].
Qed.

Lemma map_to_nat_of_nat (ks : list nat) : map Z.to_nat (map Z.of_nat ks) = ks.
Proof.
  induction ks as [|k ks IH]; [reflexivity|].
  cbn [map]. rewrite IH, Nat2Z.id. reflexivity.
Qed.

Lemma infer_size_plain (ks : list nat) (n : nat) :
  infer_size (map Z.of_nat ks) n =
  if numel ks =? n then Ok ks else Raise RuntimeError.
Proof.
  unfold infer_size, known_size.
  rewrite existsb_negative_of_nat, filter_minus_one_of_nat, filter_known_of_nat,
    map_to_nat_of_nat. reflexivity.
Qed.

Lemma infer_size_last (ks : list nat) (n : nat) :
  infer_size (map Z.of_nat ks ++ [(-1)%Z]) n =
  if numel ks =? 0 then Raise RuntimeError
  else if n mod numel ks =? 0 then Ok (ks ++ [n / numel ks])
       else Raise RuntimeError.
Proof.
  unfold infer_size, known_size.
  rewrite existsb_app, existsb_negative_of_nat.
  rewrite !List.filter_app, filter_minus_one_of_nat, filter_known_of_nat.
  cbn [existsb List.filter Z.ltb Z.eqb Z.compare Pos.compare Pos.compare_cont
       orb negb app length Pos.eqb].
  rewrite app_nil_r, map_to_nat_of_nat.
  destruct (numel ks =? 0); [reflexivity|].
  destruct (n mod numel ks =? 0); [|reflexivity].
  f_equal. rewrite map_app. f_equal.
  generalize (n / numel ks). intros q.
  induction ks as [|k ks IH]; [reflexivity|].
  cbn [map]. rewrite IH, Nat2Z.id.
  destruct (Z.eqb_spec (Z.of_nat k) (-1)); [lia|reflexivity].
Qed.

(** ** Reasoning about tensor programs *)

(** [c] started in [s] returns a value and a state that satisfy [P]. *)
Definition returns {X} (c : M X) (s : State) (P : X -> State -> Prop) : Prop :=
  exists x s', c s = (Ok x, s') /\ P x s'.

Lemma returns_ret {X} (x : X) (s : State) (P : X -> State -> Prop) :
  P x s -> returns (ret x) s P.
Proof. intros H. exists x, s. split; [reflexivity|exact H]. Qed.

Lemma returns_lift {X} (r : result X) (x : X) (s : State)
    (P : X -> State -> Prop) :
  r = Ok x -> P x s -> returns (lift r) s P.
Proof. intros -> H. exists x, s. split; [reflexivity|exact H]. Qed.

Lemma returns_bind {X Y} (c : M X) (k : X -> M Y) (s : State)
    (Q : Y -> State -> Prop) :
  returns c s (fun x s' => returns (k x) s' Q) -> returns (bind c k) s Q.
Proof.
  intros (x & s' & Hc & y & s'' & Hk & HQ).
  exists y, s''. split; [|exact HQ]. unfold bind. rewrite Hc. exact Hk.
Qed.

Lemma returns_mono {X} (c : M X) (s : State) (P Q : X -> State -> Prop) :
  returns c s P -> (forall x s', P x s' -> Q x s') -> returns c s Q.
Proof. intros (x & s' & Hc & HP) H. exists x, s'. split; [exact Hc|auto]. Qed.

Lemma returns_elim {X} (c : M X) (s s' : State) (x : X)
    (P : X -> State -> Prop) :
  returns c s P -> c s = (Ok x, s') -> P x s'.
Proof. intros (x0 & s0 & Hc & HP) H. rewrite Hc in H. injection H as -> ->. exact HP. Qed.

(** The store of [s'] extends that of [s]: every storage of [s] is still
    there, with the same content. *)
Definition extends (s s' : State) : Prop :=
  exists ext, store s' = store s ++ ext.

(** [t] views a storage that exists in [s]. *)
Definition valid (s : State) (t : Tensor) : Prop :=
  storage t < length (store s).

Lemma extends_refl (s : State) : extends s s.
Proof. exists []. rewrite app_nil_r. reflexivity. Qed.

Lemma extends_trans (s1 s2 s3 : State) :
  extends s1 s2 -> extends s2 s3 -> extends s1 s3.
Proof.
  intros [e1 H1] [e2 H2]. exists (e1 ++ e2). rewrite H2, H1, app_assoc. reflexivity.
Qed.

Lemma valid_extends (s s' : State) (t : Tensor) :
  valid s t -> extends s s' -> valid s' t.
Proof.
  unfold valid. intros H [e He]. rewrite He, length_app. lia.
Qed.

Lemma read_extends (s s' : State) (t : Tensor) (idx : list nat) :
  valid s t -> extends s s' -> read s' t idx = read s t idx.
Proof.
  unfold valid, read. intros H [e He]. rewrite He, app_nth1 by assumption. reflexivity.
Qed.

Lemma tabulate_eq (sh : list nat) (f : list nat -> A) (s : State) :
  tabulate sh f s =
  (Ok (mkTensor (length (store s)) 0 sh (contiguous_strides sh)),
   mkState (store s ++ [map f (indices sh)]) (gen s)).
Proof. reflexivity. Qed.

Lemma read_fresh (st : list (list A)) (g : G) (sh : list nat)
    (f : list nat -> A) (idx : list nat) :
  in_bounds sh idx ->
  read (mkState (st ++ [map f (indices sh)]) g)
       (mkTensor (length st) 0 sh (contiguous_strides sh)) idx = f idx.
Proof.
  intros H. unfold read, address. cbn [storage offset stride store].
  rewrite app_nth2 by lia. rewrite Nat.sub_diag. cbn [nth].
  change (dot idx (contiguous_strides sh)) with (ravel sh idx).
  apply nth_map_indices. exact H.
Qed.

(** What [tabulate] returns: a fresh contiguous tensor with the given
    content; nothing else changes. *)
Lemma tabulate_spec (sh : list nat) (f : list nat -> A) (s : State) :
  returns (tabulate sh f) s (fun t s' =>
    t = mkTensor (length (store s)) 0 sh (contiguous_strides sh) /\
    valid s' t /\ extends s s' /\ gen s' = gen s /\
    forall idx, in_bounds sh idx -> read s' t idx = f idx).
Proof.
  eexists _, _. split; [apply tabulate_eq|].
  split; [reflexivity|]. split; [|split; [|split]].
  - unfold valid. cbn. rewrite length_app. cbn. lia.
  - eexists. reflexivity.
  - reflexivity.
  - intros idx H. apply read_fresh. exact H.
Qed.

(** What [contiguous] returns: a contiguous tensor of the same shape and
    content; the input storage is not written. *)
Lemma contiguous_spec (t : Tensor) (s : State) :
  valid s t ->
  returns (contiguous t) s (fun c s' =>
    shape c = shape t /\ is_contiguous c = true /\
    valid s' c /\ extends s s' /\ gen s' = gen s /\
    forall idx, in_bounds (shape t) idx -> read s' c idx = read s t idx).
Proof.
  intros Hv. unfold contiguous. destruct (is_contiguous t) eqn:Hc.
  - apply returns_ret. repeat split; auto using extends_refl.
  - apply returns_bind. exists s, s. split; [reflexivity|].
    eapply returns_mono; [apply tabulate_spec|].
    intros c s' (-> & Hv' & He & Hg & Hr). repeat split; auto.
    unfold is_contiguous. cbn [shape stride].
    rewrite strides_match_contiguous. apply orb_true_r.
Qed.

(** Reading through a [view] of a contiguous tensor: same row-major
    position, same element. *)
Lemma read_view (s : State) (c : Tensor) (sh idx' idx : list nat) :
  is_contiguous c = true -> in_bounds (shape c) idx ->
  ravel sh idx' = ravel (shape c) idx ->
  read s (mkTensor (storage c) (offset c) sh (contiguous_strides sh)) idx' =
  read s c idx.
Proof.
  intros Hc Hb He. unfold read, address. cbn [storage offset stride].
  rewrite (is_contiguous_dot c idx Hc Hb).
  change (dot idx' (contiguous_strides sh)) with (ravel sh idx').
  rewrite He. reflexivity.
Qed.


(** ** Patch extraction *)

Lemma windows_count (len ws : nat) :
  0 < ws -> ws <= len -> (len - ws) / ws + 1 = len / ws.
Proof.
  intros Hpos Hle.
  replace len with ((len - ws) + 1 * ws) at 2 by lia.
  rewrite Nat.div_add by lia. reflexivity.
Qed.

Lemma windows_pos (len ws : nat) : 0 < ws -> ws <= len -> 0 < len / ws.
Proof. intros Hpos Hle. apply Nat.div_str_pos. lia. Qed.

(** Patch extraction on a 4-D tensor whose height and width are at least
    the window size: shape and content of the result.  Divisibility is not
    needed; rows and columns beyond the last full window are not read. *)
Lemma get_valid_patches_spec (self : ReNetLayer) (x : Tensor) (s : State)
    (B C H W ws : nat) :
  window_size self = (ws, ws) ->
  shape x = [B; C; H; W] -> length (stride x) = 4 -> valid s x ->
  0 < B -> 0 < ws -> ws <= H -> ws <= W ->
  returns (get_valid_patches self x) s (fun p s' =>
    shape p = [B; ws * ws * C; H / ws; W / ws] /\
    length (stride p) = 4 /\ valid s' p /\ extends s s' /\ gen s' = gen s /\
    forall b c r q i j,
      b < B -> c < C -> r < ws -> q < ws -> i < H / ws -> j < W / ws ->
      read s' p [b; (c * ws + r) * ws + q; i; j] =
      read s x [b; c; i * ws + r; j * ws + q]).
Proof.
  intros Hws Hsh Hst Hv HB Hpos HH HW.
  destruct x as [loc off sh st]. cbn [shape stride] in Hsh, Hst. subst sh.
  destruct st as [|s0 [|s1 [|s2 [|s3 [|? ?]]]]]; try discriminate Hst. clear Hst.
  unfold get_valid_patches. rewrite Hws. cbn [fst snd].
  assert (Hlt1 : (H <? ws) = false) by (apply Nat.ltb_ge; lia).
  assert (Hlt2 : (W <? ws) = false) by (apply Nat.ltb_ge; lia).
  assert (Hz : (ws =? 0) = false) by (apply Nat.eqb_neq; lia).
  apply returns_bind. eapply returns_lift.
  { unfold unfold. cbn -[Nat.ltb Nat.eqb Nat.div Nat.sub Nat.mul]. rewrite Hlt1, Hz. reflexivity. }
  apply returns_bind. eapply returns_lift.
  { unfold unfold. cbn -[Nat.ltb Nat.eqb Nat.div Nat.sub Nat.mul]. rewrite Hlt2, Hz. reflexivity. }
  apply returns_bind. eapply returns_lift.
  { unfold permute. cbn -[Nat.div Nat.sub Nat.mul]. reflexivity. }
  rewrite !windows_count by assumption.
  pose proof (windows_pos H ws Hpos HH) as HH'.
  pose proof (windows_pos W ws Hpos HW) as HW'.
  set (H' := H / ws) in *. set (W' := W / ws) in *.
  apply returns_bind.
  eapply returns_mono; [apply contiguous_spec; exact Hv|].
  intros c s' (Hcs & Hcc & Hcv & He & Hg & Hr). cbn [shape] in Hcs, Hr.
  apply returns_bind. eapply returns_lift; [reflexivity|].
  apply returns_bind. eapply returns_lift; [reflexivity|].
  apply returns_bind. eapply returns_lift; [reflexivity|].
  assert (Hk : numel [B; H'; W'] <> 0) by (cbn; nia).
  assert (Hn : numel [B; H'; W'; C; ws; ws] = (ws * ws * C) * numel [B; H'; W'])
    by (cbn; ring).
  apply returns_bind. eapply returns_lift.
  { unfold view. rewrite Hcc, Hcs.
    change [Z.of_nat B; Z.of_nat H'; Z.of_nat W'; (-1)%Z]
      with (map Z.of_nat [B; H'; W'] ++ [(-1)%Z]).
    rewrite infer_size_last.
    destruct (Nat.eqb_spec (numel [B; H'; W']) 0) as [E|_]; [contradiction|].
    rewrite Hn, Nat.Div0.mod_mul, Nat.div_mul by assumption.
    reflexivity. }
  eapply returns_lift; [reflexivity|].
  split; [reflexivity|]. split; [reflexivity|]. split; [exact Hcv|].
  split; [exact He|]. split; [exact Hg|].
  intros b ch r q i j Hb Hc Hr' Hq Hi Hj.
  set (F := ws * ws * C).
  transitivity (read s' (mkTensor (storage c) (offset c) [B; H'; W'; F]
                           (contiguous_strides [B; H'; W'; F]))
                        [b; i; j; (ch * ws + r) * ws + q]).
  { unfold read, address. cbn -[Nat.mul Nat.add Nat.div]. f_equal. cbn. lia. }
  rewrite (read_view s' c _ _ [b; i; j; ch; r; q]).
  - rewrite Hr.
    + unfold read, address. cbn -[Nat.mul Nat.add Nat.div]. f_equal. cbn. ring.
    + repeat constructor; assumption.
  - exact Hcc.
  - rewrite Hcs. repeat constructor; assumption.
  - rewrite Hcs. unfold F. cbn. ring.
Qed.

(** ** Splitting and concatenating *)

Lemma locate_uniform (m n i : nat) :
  0 < m -> i < n * m -> locate (repeat m n) i = (i / m, i mod m).
Proof.
  intros Hm. revert i. induction n as [|n IH]; intros i Hi; [lia|].
  cbn [repeat locate]. destruct (Nat.ltb_spec i m) as [Hlt|Hge].
  - rewrite Nat.div_small, Nat.mod_small by assumption. reflexivity.
  - rewrite IH by lia.
    replace i with ((i - m) + 1 * m) at 3 4 by lia.
    rewrite Nat.div_add, Nat.Div0.mod_add by lia.
    f_equal. lia.
Qed.

Lemma sum_repeat (m n : nat) : foldr Nat.add 0 (repeat m n) = n * m.
Proof. induction n as [|n IH]; [reflexivity|]. cbn. rewrite IH. reflexivity. Qed.

Lemma same_shape_except_refl (dim : nat) (sh : list nat) :
  same_shape_except dim sh sh = true.
Proof.
  unfold same_shape_except. rewrite Nat.eqb_refl. cbn [andb].
  apply forallb_forall. intros k _. rewrite Nat.eqb_refl. apply orb_true_r.
Qed.

Lemma in_bounds_insert_nth (sh idx : list nat) (dim v : nat) :
  dim < length sh -> in_bounds (<[dim := v]> sh) idx -> nth dim idx 0 < v.
Proof.
  revert idx dim. induction sh as [|n sh IH]; intros idx dim Hd H; [cbn in Hd; lia|].
  destruct dim as [|dim]; cbn in H.
  - apply in_bounds_cons_inv in H as (i & idx' & -> & Hi & _). exact Hi.
  - apply in_bounds_cons_inv in H as (i & idx' & -> & _ & H').
    cbn [nth]. apply IH; [cbn in Hd; lia|exact H'].
Qed.

(** Concatenation of [n] tensors of one shape along [dim]: position [i]
    along [dim] comes from tensor [i / m] at position [i mod m], where [m]
    is the common length along [dim]. *)
Lemma cat_uniform_spec (ts : list Tensor) (t0 : Tensor) (dim m : nat)
    (sh : list nat) (s : State) :
  ts <> [] -> Forall (fun t => shape t = sh) ts ->
  dim < length sh -> nth dim sh 0 = m -> 0 < m ->
  returns (cat ts dim) s (fun t s' =>
    t = mkTensor (length (store s)) 0 (<[dim := length ts * m]> sh)
          (contiguous_strides (<[dim := length ts * m]> sh)) /\
    valid s' t /\ extends s s' /\ gen s' = gen s /\
    forall idx, in_bounds (<[dim := length ts * m]> sh) idx ->
      read s' t idx =
      read s (nth (nth dim idx 0 / m) ts t0) (<[dim := nth dim idx 0 mod m]> idx)).
Proof.
  intros Hne Hall Hdim Hm Hpos.
  assert (Hlens : map (fun t => nth dim (shape t) 0) ts = repeat m (length ts)).
  { clear -Hall Hm. induction Hall as [|t l Ht _ IH]; [reflexivity|].
    cbn. rewrite IH, Ht, Hm. reflexivity. }
  destruct ts as [|t1 ts']; [contradiction|]. remember (t1 :: ts') as ts eqn:Ets.
  assert (Hsh1 : shape t1 = sh) by (subst ts; inversion Hall; assumption).
  unfold cat. rewrite Ets at 1. cbv beta iota. rewrite Hsh1.
  assert (Hck : (dim <? length sh) &&
                forallb (fun t => same_shape_except dim sh (shape t)) ts = true).
  { apply andb_true_intro. split; [apply Nat.ltb_lt; assumption|].
    apply forallb_forall. intros t Ht.
    rewrite Forall_forall in Hall. rewrite (Hall t).
    - apply same_shape_except_refl.
    - apply list_elem_of_In. exact Ht. }
  rewrite Hck, Hlens, sum_repeat.
  apply returns_bind. exists s, s. split; [reflexivity|].
  eapply returns_mono; [apply tabulate_spec|].
  intros t s' (-> & Hv & He & Hg & Hr). repeat split; auto.
  intros idx Hidx. rewrite Hr by assumption.
  rewrite locate_uniform.
  - f_equal. apply nth_indep.
    apply Nat.Div0.div_lt_upper_bound. rewrite Nat.mul_comm.
    eapply in_bounds_insert_nth; eassumption.
  - assumption.
  - eapply in_bounds_insert_nth; eassumption.
Qed.

(** Splitting the first dimension into slices of length one. *)
Lemma split_rows (t : Tensor) (n s0 : nat) (sh st : list nat) :
  shape t = n :: sh -> stride t = s0 :: st -> 0 < n ->
  split t 1 0 =
  Ok (map (fun i => mkTensor (storage t) (offset t + i * s0) (1 :: sh) (s0 :: st))
          (seq 0 n)).
Proof.
  intros Hsh Hst Hn. unfold split. rewrite Hsh, Hst. cbn [lookup list_lookup Nat.eqb].
  f_equal. replace (Nat.max 1 ((n + 1 - 1) / 1)) with n
    by (rewrite Nat.add_sub, Nat.div_1_r; lia).
  apply map_ext_in. intros i Hi. apply in_seq in Hi.
  replace (Nat.min 1 (n - i * 1)) with 1 by lia.
  f_equal. f_equal. ring.
Qed.

(** Splitting the second dimension of length [n * b] into [n] blocks of
    length [b]. *)
Lemma split_blocks (t : Tensor) (d0 n b s0 s1 : nat) (sh st : list nat) :
  shape t = d0 :: n * b :: sh -> stride t = s0 :: s1 :: st -> 0 < n -> 0 < b ->
  split t b 1 =
  Ok (map (fun i => mkTensor (storage t) (offset t + i * b * s1)
                      (d0 :: b :: sh) (s0 :: s1 :: st))
          (seq 0 n)).
Proof.
  intros Hsh Hst Hn Hb. unfold split. rewrite Hsh, Hst. cbn [lookup list_lookup].
  destruct (Nat.eqb_spec b 0) as [E|_]; [lia|].
  f_equal. replace (Nat.max 1 ((n * b + b - 1) / b)) with n.
  - apply map_ext_in. intros i Hi. apply in_seq in Hi.
    replace (Nat.min b (n * b - i * b)) with b by nia.
    reflexivity.
  - replace (n * b + b - 1) with ((b - 1) + n * b) by lia.
    rewrite Nat.div_add by lia. rewrite Nat.div_small by lia. lia.
Qed.


(** ** Initial states and the recurrent call *)

(** [t] is a tensor of shape [sh] that lives in [s] and holds zeros. *)
Definition is_zeros (s : State) (t : Tensor) (sh : list nat) : Prop :=
  shape t = sh /\ valid s t /\
  forall idx, in_bounds sh idx -> read s t idx = zero.

Lemma is_zeros_extends (s s' : State) (t : Tensor) (sh : list nat) :
  is_zeros s t sh -> extends s s' -> is_zeros s' t sh.
Proof.
  intros (Hsh & Hv & Hr) He. split; [exact Hsh|]. split; [eauto using valid_extends|].
  intros idx Hidx. rewrite (read_extends s s') by assumption. auto.
Qed.

Lemma zeros_spec (sh : list nat) (s : State) :
  returns (zeros sh) s (fun t s' =>
    is_zeros s' t sh /\ extends s s' /\ gen s' = gen s).
Proof.
  eapply returns_mono; [apply tabulate_spec|].
  intros t s' (-> & Hv & He & Hg & Hr). repeat split; auto.
Qed.

(** The initial state is a pair of zero tensors for the memory-cell class
    and one zero tensor otherwise, of shape (2 * stack, x.size(1), hidden). *)
Lemma get_init_hidden_spec (self : ReNetLayer) (x : Tensor) (stack n : nat)
    (s : State) :
  size x 1 = Ok n ->
  returns (get_init_hidden self x stack) s (fun hx s' =>
    extends s s' /\ gen s' = gen s /\
    if String.eqb (rnn_type self) "LSTM"
    then exists h0 c0, hx = HPair h0 c0 /\
           is_zeros s' h0 [2 * stack; n; hidden_dim self] /\
           is_zeros s' c0 [2 * stack; n; hidden_dim self]
    else exists h0, hx = HTensor h0 /\
           is_zeros s' h0 [2 * stack; n; hidden_dim self]).
Proof.
  intros Hn. unfold get_init_hidden, to_device.
  destruct (String.eqb (rnn_type self) "LSTM").
  - apply returns_bind. eapply returns_lift; [exact Hn|].
    apply returns_bind. eapply returns_mono; [apply zeros_spec|].
    intros h0 s1 (Hz1 & He1 & Hg1).
    apply returns_bind. apply returns_ret.
    apply returns_bind. eapply returns_lift; [exact Hn|].
    apply returns_bind. eapply returns_mono; [apply zeros_spec|].
    intros c0 s2 (Hz2 & He2 & Hg2).
    apply returns_bind. apply returns_ret. apply returns_ret.
    split; [eauto using extends_trans|]. split; [congruence|].
    exists h0, c0. split; [reflexivity|]. split; [|exact Hz2].
    eapply is_zeros_extends; eassumption.
  - apply returns_bind. eapply returns_lift; [exact Hn|].
    apply returns_bind. eapply returns_mono; [apply zeros_spec|].
    intros h0 s1 (Hz1 & He1 & Hg1).
    apply returns_bind. apply returns_ret. apply returns_ret.
    split; [exact He1|]. split; [exact Hg1|].
    exists h0. split; [reflexivity|exact Hz1].
Qed.

Lemma nth_map_seq {X} (g : nat -> X) (d : X) (n i : nat) :
  i < n -> nth i (map g (seq 0 n)) d = g i.
Proof.
  intros Hi. rewrite (nth_indep _ d (g 0)) by (rewrite length_map, length_seq; lia).
  rewrite map_nth, seq_nth by lia. reflexivity.
Qed.

(** The input sequence of batch element [b] of a batch-first 3-D tensor. *)
Definition sequence_of (s : State) (inp : Tensor) (len f b : nat)
  : list (list A) :=
  map (fun t => map (fun k => read s inp [b; t; k]) (seq 0 f)) (seq 0 len).

(** The recurrent call on a batch-first input (N, L, F): a fresh tensor
    (N, L, directions * hidden) whose row [b] is computed from row [b] of
    the input and of the initial state. *)
Lemma rnn_call_spec (m : RNNModule) (tr : bool) (inp : Tensor) (hx : Hidden)
    (h : Tensor) (c : option Tensor) (N L F : nat) (s : State) :
  shape inp = [N; L; F] -> batch_first m = true -> F = input_size m -> 0 < L ->
  check_hidden m N hx = Ok (h, c) ->
  returns (rnn_call m tr inp hx) s (fun out s' =>
    out = mkTensor (length (store s)) 0
            [N; L; num_directions m * hidden_size m]
            (contiguous_strides [N; L; num_directions m * hidden_size m]) /\
    valid s' out /\ extends s s' /\
    gen s' = (if dropout_active m tr then rnn_gen m N L (gen s) else gen s) /\
    forall b t k, b < N -> t < L -> k < num_directions m * hidden_size m ->
      read s' out [b; t; k] =
      nth k (nth t (rnn_seq m tr (gen s) b (state_rows s m h b)
                      (option_map (fun c => state_rows s m c b) c)
                      (sequence_of s inp L F b)) []) zero).
Proof.
  intros Hsh Hbf HF HL Hck. unfold rnn_call. rewrite Hsh, Hbf.
  subst F. rewrite Nat.eqb_refl. cbn [negb].
  destruct (Nat.eqb_spec L 0) as [E|_]; [lia|].
  apply returns_bind. eapply returns_lift; [exact Hck|].
  apply returns_bind. exists s, s. split; [reflexivity|].
  apply returns_bind. eapply returns_mono; [apply tabulate_spec|].
  intros out s' (-> & Hv & He & Hg & Hr).
  apply returns_bind. eexists tt, _. split; [reflexivity|].
  apply returns_ret. split; [reflexivity|]. split; [exact Hv|].
  split; [exact He|]. split; [reflexivity|].
  intros b t k Hb Ht Hk.
  transitivity (read s' (mkTensor (length (store s)) 0
                  [N; L; num_directions m * hidden_size m]
                  (contiguous_strides [N; L; num_directions m * hidden_size m]))
                  [b; t; k]); [reflexivity|].
  rewrite Hr by (repeat constructor; assumption).
  cbn [nth]. rewrite (nth_map_seq _ _ N b Hb). reflexivity.
Qed.


(** ** One recurrent sweep *)

(** The recurrent module fits the layer and a feature size: it was built
    batch-first and bidirectional, with the layer's hidden size and stack
    depth, and its class is the one the layer's [rnn_type] names. *)
Definition module_fits (self : ReNetLayer) (m : RNNModule) (f stack : nat)
  : Prop :=
  batch_first m = true /\ bidirectional m = true /\ input_size m = f /\
  hidden_size m = hidden_dim self /\ num_layers m = stack /\
  (mode m = LSTM <-> rnn_type self = "LSTM").

(** The feature vectors of [x] at dim-0 position [i] and batch position [b],
    listed along dim 2. *)
Definition slice (s : State) (x : Tensor) (len f i b : nat) : list (list A) :=
  map (fun t => map (fun k => read s x [i; b; t; k]) (seq 0 f)) (seq 0 len).

Definition zero_rows (n d : nat) : list (list A) := repeat (repeat zero d) n.

(** The initial state the layer hands to the module: zeros, with a cell
    state for the memory-cell class only. *)
Definition init_cell (self : ReNetLayer) (stack : nat)
  : option (list (list A)) :=
  if String.eqb (rnn_type self) "LSTM"
  then Some (zero_rows (2 * stack) (hidden_dim self)) else None.

Lemma map_seq_const {X} (g : nat -> X) (c : X) (n a : nat) :
  (forall i, a <= i < a + n -> g i = c) -> map g (seq a n) = repeat c n.
Proof.
  revert a. induction n as [|n IH]; intros a H; [reflexivity|].
  cbn. rewrite H by lia. rewrite IH; [reflexivity|]. intros i Hi. apply H. lia.
Qed.

Lemma state_rows_zeros (s : State) (m : RNNModule) (h : Tensor) (n b : nat) :
  is_zeros s h [num_directions m * num_layers m; n; hidden_size m] -> b < n ->
  state_rows s m h b = zero_rows (num_directions m * num_layers m) (hidden_size m).
Proof.
  intros (_ & _ & Hr) Hb. unfold state_rows, zero_rows.
  apply map_seq_const. intros k Hk. apply map_seq_const. intros j Hj.
  apply Hr. repeat constructor; lia.
Qed.

Lemma check_hidden_fits (self : ReNetLayer) (m : RNNModule) (f stack n : nat)
    (hx : Hidden) (s : State) :
  module_fits self m f stack ->
  (if String.eqb (rnn_type self) "LSTM"
   then exists h0 c0, hx = HPair h0 c0 /\
          is_zeros s h0 [2 * stack; n; hidden_dim self] /\
          is_zeros s c0 [2 * stack; n; hidden_dim self]
   else exists h0, hx = HTensor h0 /\
          is_zeros s h0 [2 * stack; n; hidden_dim self]) ->
  exists h c, check_hidden m n hx = Ok (h, c) /\
    is_zeros s h [num_directions m * num_layers m; n; hidden_size m] /\
    option_map (fun _ => zero_rows (2 * stack) (hidden_dim self)) c =
    init_cell self stack /\
    forall c1, c = Some c1 ->
      is_zeros s c1 [num_directions m * num_layers m; n; hidden_size m].
Proof.
  intros (Hbf & Hbi & Hin & Hhs & Hnl & Hmode) Hhx.
  unfold init_cell, check_hidden, hidden_ok, num_directions.
  rewrite Hbi, Hhs, Hnl.
  destruct (String.eqb_spec (rnn_type self) "LSTM") as [E|E].
  - destruct Hhx as (h0 & c0 & -> & Hh & Hc).
    rewrite (proj2 Hmode E).
    pose proof Hh as (Hsh & _). pose proof Hc as (Hsc & _).
    rewrite !bool_decide_eq_true_2 by assumption.
    exists h0, (Some c0).
    split; [reflexivity|]. split; [exact Hh|]. split; [reflexivity|].
    intros c1 [= <-]. exact Hc.
  - destruct Hhx as (h0 & -> & Hh). pose proof Hh as (Hsh & _).
    assert (Hm : mode m <> LSTM) by (intros Hm; apply E, Hmode, Hm).
    exists h0, None.
    destruct (mode m); try contradiction;
      rewrite bool_decide_eq_true_2 by assumption;
      (split; [reflexivity|]; split; [exact Hh|]; split; [reflexivity|];
       intros c1 [=]).
Qed.


(** What one sweep computes.  The first dimension of [x] is folded into the
    batch of the recurrent call, whose sequences run along the third
    dimension: the output at (i, b, t) is position [t] of the network's
    output on the slice of [x] at (i, b). *)
Lemma apply_one_direction_spec (self : ReNetLayer) (x : Tensor)
    (m : RNNModule) (stack S B O F : nat) (s : State) :
  shape x = [S; B; O; F] -> length (stride x) = 4 -> valid s x ->
  0 < S -> 0 < B -> 0 < O -> module_fits self m F stack ->
  returns (apply_one_direction self x m stack) s (fun out s' =>
    shape out = [S; B; O; 2 * hidden_dim self] /\
    length (stride out) = 4 /\ valid s' out /\ extends s s' /\
    gen s' = (if dropout_active m (training self)
              then rnn_gen m (S * B) O (gen s) else gen s) /\
    forall i b t k, i < S -> b < B -> t < O -> k < 2 * hidden_dim self ->
      read s' out [i; b; t; k] =
      nth k (nth t (rnn_seq m (training self) (gen s) (i * B + b)
                      (zero_rows (2 * stack) (hidden_dim self))
                      (init_cell self stack)
                      (slice s x O F i b)) []) zero).
Proof.
  intros Hsh Hst Hv HS HB HO Hfit.
  destruct x as [loc off sh st]. cbn [shape stride] in Hsh, Hst. subst sh.
  destruct st as [|x0 [|x1 [|x2 [|x3 [|? ?]]]]]; try discriminate Hst. clear Hst.
  unfold apply_one_direction.
  apply returns_bind. eapply returns_lift.
  { eapply split_rows; [reflexivity|reflexivity|exact HS]. }
  cbn [storage offset].
  set (parts := map _ (seq 0 S)).
  assert (Hlen : length parts = S) by (unfold parts; rewrite length_map, length_seq; reflexivity).
  apply returns_bind.
  eapply returns_mono.
  { apply (cat_uniform_spec parts (mkTensor loc off [1; B; O; F] [x0; x1; x2; x3])
             1 B [1; B; O; F]).
    - intros E. rewrite E in Hlen. cbn in Hlen. lia.
    - unfold parts. apply Forall_forall. intros t Ht.
      apply list_elem_of_In, in_map_iff in Ht as (i & <- & _). reflexivity.
    - cbn. lia.
    - reflexivity.
    - exact HB. }
  rewrite Hlen. cbn [insert list_insert].
  intros _in s1' (-> & Hv1 & He1 & Hg1 & Hr1).
  apply returns_bind.
  eapply returns_mono;
    [apply (get_init_hidden_spec self _ stack (S * B)); reflexivity|].
  intros hn s2 (He2 & Hg2 & Hhx).
  destruct (check_hidden_fits self m F stack (S * B) hn s2 Hfit Hhx)
    as (h & c & Hck & Hzh & Hcell & Hzc).
  pose proof Hfit as (Hbf & Hbi & Hin & Hhs & Hnl & Hmode).
  assert (HD : num_directions m * hidden_size m = 2 * hidden_dim self)
    by (unfold num_directions; rewrite Hbi, Hhs; reflexivity).
  apply returns_bind. eapply returns_lift; [reflexivity|].
  apply returns_bind.
  eapply returns_mono.
  { eapply (rnn_call_spec m (training self) _ hn h c (S * B) O F);
      [reflexivity|exact Hbf|symmetry; exact Hin|exact HO|exact Hck]. }
  rewrite HD. set (D := 2 * hidden_dim self) in *.
  intros out s3 (-> & Hv3 & He3 & Hg3 & Hr3).
  apply returns_bind.
  eapply returns_mono; [apply contiguous_spec; exact Hv3|].
  intros c4 s4 (Hcs & Hcc & Hcv & He4 & Hg4 & Hr4). cbn [shape] in Hcs, Hr4.
  apply returns_bind. eapply returns_lift; [reflexivity|].
  apply returns_bind. eapply returns_lift; [reflexivity|].
  apply returns_bind. eapply returns_lift; [reflexivity|].
  apply returns_bind. eapply returns_lift.
  { unfold view. rewrite Hcc, Hcs.
    change [1%Z; Z.of_nat (S * B); Z.of_nat O; Z.of_nat D]
      with (map Z.of_nat [1; S * B; O; D]).
    rewrite infer_size_plain.
    destruct (Nat.eqb_spec (numel [1; S * B; O; D]) (numel [S * B; O; D]))
      as [_|E]; [reflexivity|].
    exfalso. apply E. cbn. lia. }
  apply returns_bind. eapply returns_lift; [reflexivity|].
  apply returns_bind. eapply returns_lift.
  { eapply (split_blocks _ 1 S B); [reflexivity|reflexivity|exact HS|exact HB]. }
  cbn [storage offset].
  set (parts' := map _ (seq 0 S)).
  assert (Hlen' : length parts' = S)
    by (unfold parts'; rewrite length_map, length_seq; reflexivity).
  eapply returns_mono.
  { apply (cat_uniform_spec parts'
             (mkTensor (storage c4) (offset c4) [1; B; O; D]
                (contiguous_strides [1; S * B; O; D])) 0 1 [1; B; O; D]).
    - intros E. rewrite E in Hlen'. cbn in Hlen'. lia.
    - unfold parts'. apply Forall_forall. intros t Ht.
      apply list_elem_of_In, in_map_iff in Ht as (i & <- & _). reflexivity.
    - cbn. lia.
    - reflexivity.
    - lia. }
  rewrite Hlen', Nat.mul_1_r. cbn [insert list_insert].
  intros out s5 (-> & Hv5 & He5 & Hg5 & Hr5).
  split; [reflexivity|]. split; [reflexivity|]. split; [exact Hv5|].
  split; [eauto using extends_trans|].
  split; [rewrite Hg5, Hg4, Hg3, Hg2, Hg1; reflexivity|].
  intros i b t k Hi Hb Ht Hk.
  assert (Hn : i * B + b < S * B) by nia.
  rewrite Hr5 by (repeat constructor; assumption).
  cbn [nth]. rewrite Nat.div_1_r, Nat.mod_1_r. cbn [insert list_insert].
  unfold parts'. rewrite (nth_map_seq _ _ S i Hi).
  transitivity (read s4 (mkTensor (storage c4) (offset c4) [1; S * B; O; D]
                           (contiguous_strides [1; S * B; O; D]))
                        [0; i * B + b; t; k]).
  { unfold read, address. cbn -[Nat.mul Nat.add]. f_equal. cbn. ring. }
  rewrite (read_view s4 c4 _ _ [i * B + b; t; k]);
    [|exact Hcc|rewrite Hcs; repeat constructor; assumption
     |rewrite Hcs; cbn; lia].
  rewrite Hr4 by (repeat constructor; assumption).
  rewrite Hr3 by assumption.
  f_equal. f_equal. f_equal.
  - congruence.
  - rewrite (state_rows_zeros s2 m h (S * B)) by assumption.
    unfold num_directions. rewrite Hbi, Hnl, Hhs. reflexivity.
  - rewrite <- Hcell. destruct c as [c1|]; [|reflexivity]. cbn [option_map].
    rewrite (state_rows_zeros s2 m c1 (S * B)); [|apply Hzc; reflexivity|assumption].
    unfold num_directions. rewrite Hbi, Hnl, Hhs. reflexivity.
  - unfold sequence_of, slice. apply map_ext_in. intros t' Ht'.
    apply map_ext_in. intros k' Hk'. apply in_seq in Ht', Hk'.
    transitivity (read s2 (mkTensor (length (store s)) 0 [1; S * B; O; F]
                             (contiguous_strides [1; S * B; O; F]))
                          [0; i * B + b; t'; k']).
    { unfold read, address. cbn -[Nat.mul Nat.add]. f_equal. }
    rewrite (read_extends s1' s2) by assumption.
    rewrite Hr1 by (repeat constructor; lia).
    cbn [nth]. rewrite Nat.div_add_l, Nat.div_small, Nat.add_0_r by lia.
    replace ((i * B + b) mod B) with b
      by (rewrite Nat.add_comm, Nat.Div0.mod_add, Nat.mod_small; lia).
    cbn [insert list_insert]. unfold parts. rewrite (nth_map_seq _ _ S i Hi).
    unfold read, address. cbn -[Nat.mul Nat.add]. f_equal. cbn. ring.
Qed.

(** ** The whole layer as a function of the input's elements *)

(** Feature vector of the patch at grid position (i, j) of image [b]:
    channel-major, then row-major inside the window. *)
Definition patch_vector (rd : list nat -> A) (ws C b i j : nat) : list A :=
  map (fun f => rd [b; f / (ws * ws); i * ws + (f / ws) mod ws; j * ws + f mod ws])
      (seq 0 (ws * ws * C)).

(** Output of the first recurrent module on patch row [i] of image [b]:
    its sequence runs over the patch columns. *)
Definition first_sweep (self : ReNetLayer) (rd : list nat -> A) (g : G)
    (B C W' i b : nat) : list (list A) :=
  rnn_seq (firstVRNN self) (training self) g (i * B + b)
    (zero_rows (2 * fst (stack_size self)) (hidden_dim self))
    (init_cell self (fst (stack_size self)))
    (map (fun j => patch_vector rd (fst (window_size self)) C b i j) (seq 0 W')).

(** Generator state between the two sweeps. *)
Definition gen_between (self : ReNetLayer) (g : G) (B H' W' : nat) : G :=
  if dropout_active (firstVRNN self) (training self)
  then rnn_gen (firstVRNN self) (H' * B) W' g else g.

(** Generator state after the layer. *)
Definition gen_after (self : ReNetLayer) (g : G) (B H' W' : nat) : G :=
  if dropout_active (secondHRNN self) (training self)
  then rnn_gen (secondHRNN self) (W' * B) H' (gen_between self g B H' W')
  else gen_between self g B H' W'.

(** Output of the second recurrent module on patch column [j] of image [b]:
    its sequence runs over the patch rows of the first sweep's output. *)
Definition second_sweep (self : ReNetLayer) (rd : list nat -> A) (g : G)
    (B C H' W' j b : nat) : list (list A) :=
  rnn_seq (secondHRNN self) (training self) (gen_between self g B H' W')
    (j * B + b)
    (zero_rows (2 * snd (stack_size self)) (hidden_dim self))
    (init_cell self (snd (stack_size self)))
    (map (fun i =>
            map (fun k => nth k (nth j (first_sweep self rd g B C W' i b) []) zero)
                (seq 0 (2 * hidden_dim self)))
         (seq 0 H')).

(** Element (b, k, i, j) of the layer's output. *)
Definition forward_value (self : ReNetLayer) (rd : list nat -> A) (g : G)
    (B C H' W' b k i j : nat) : A :=
  nth k (nth i (second_sweep self rd g B C H' W' j b) []) zero.

(** The layer as its constructor leaves it, for window size [ws] and
    [C] input channels. *)
Definition layer_ok (self : ReNetLayer) (ws C : nat) : Prop :=
  window_size self = (ws, ws) /\
  module_fits self (firstVRNN self) (ws * ws * C) (fst (stack_size self)) /\
  module_fits self (secondHRNN self) (2 * hidden_dim self)
    (snd (stack_size self)).

Lemma div_mod_window (ws C f : nat) :
  0 < ws -> f < ws * ws * C ->
  f / (ws * ws) < C /\ (f / ws) mod ws < ws /\ f mod ws < ws /\
  f = (f / (ws * ws) * ws + (f / ws) mod ws) * ws + f mod ws.
Proof.
  intros Hws Hf. split; [|split; [|split]].
  - apply Nat.Div0.div_lt_upper_bound. lia.
  - apply Nat.mod_upper_bound. lia.
  - apply Nat.mod_upper_bound. lia.
  - rewrite <- Nat.Div0.div_div.
    pose proof (Nat.div_mod_eq (f / ws) ws). pose proof (Nat.div_mod_eq f ws). nia.
Qed.

(** The layer on a 4-D input whose height and width are at least the
    window size: the output has shape (B, 2 * hidden, H / ws, W / ws), its
    elements are those of [forward_value], and the store is only extended. *)
Lemma forward_spec (self : ReNetLayer) (x : Tensor) (s : State)
    (B C H W ws : nat) :
  layer_ok self ws C ->
  shape x = [B; C; H; W] -> length (stride x) = 4 -> valid s x ->
  0 < B -> 0 < ws -> ws <= H -> ws <= W ->
  returns (forward self x) s (fun out s' =>
    shape out = [B; 2 * hidden_dim self; H / ws; W / ws] /\
    valid s' out /\ extends s s' /\
    gen s' = gen_after self (gen s) B (H / ws) (W / ws) /\
    forall b k i j,
      b < B -> k < 2 * hidden_dim self -> i < H / ws -> j < W / ws ->
      read s' out [b; k; i; j] =
      forward_value self (read s x) (gen s) B C (H / ws) (W / ws) b k i j).
Proof.
  intros (Hws & Hfit1 & Hfit2) Hsh Hst Hv HB Hpos HH HW.
  pose proof (windows_pos H ws Hpos HH) as HH'.
  pose proof (windows_pos W ws Hpos HW) as HW'.
  unfold forward.
  apply returns_bind.
  eapply returns_mono;
    [eapply get_valid_patches_spec; eassumption|].
  set (H' := H / ws) in *. set (W' := W / ws) in *.
  intros p s1 (Hp & Hpst & Hpv & He1 & Hg1 & Hr1).
  destruct p as [pl po psh pst]. cbn [shape stride] in Hp, Hpst. subst psh.
  destruct pst as [|p0 [|p1 [|p2 [|p3 [|? ?]]]]]; try discriminate Hpst. clear Hpst.
  apply returns_bind. eapply returns_lift; [reflexivity|].
  apply returns_bind.
  eapply returns_mono.
  { eapply (apply_one_direction_spec self _ (firstVRNN self) _ H' B W' (ws * ws * C));
      [reflexivity|reflexivity|exact Hpv|exact HH'|exact HB|exact HW'|exact Hfit1]. }
  intros v s2 (Hvs & Hvst & Hvv & He2 & Hg2 & Hr2).
  destruct v as [vl vo vsh vst]. cbn [shape stride] in Hvs, Hvst. subst vsh.
  destruct vst as [|v0 [|v1 [|v2 [|v3 [|? ?]]]]]; try discriminate Hvst. clear Hvst.
  apply returns_bind. eapply returns_lift; [reflexivity|].
  apply returns_bind.
  eapply returns_mono.
  { eapply (apply_one_direction_spec self _ (secondHRNN self) _ W' B H'
              (2 * hidden_dim self));
      [reflexivity|reflexivity|exact Hvv|exact HW'|exact HB|exact HH'|exact Hfit2]. }
  intros u s3 (Hus & Hust & Huv & He3 & Hg3 & Hr3).
  destruct u as [ul uo ush ust]. cbn [shape stride] in Hus, Hust. subst ush.
  destruct ust as [|u0 [|u1 [|u2 [|u3 [|? ?]]]]]; try discriminate Hust. clear Hust.
  apply returns_bind. eapply returns_lift; [reflexivity|].
  apply returns_ret.
  split; [reflexivity|]. split; [exact Huv|].
  split; [eauto using extends_trans|].
  split.
  { rewrite Hg3, Hg2, Hg1. reflexivity. }
  intros b k i j Hb Hk Hi Hj.
  transitivity (read s3 (mkTensor ul uo [W'; B; H'; 2 * hidden_dim self]
                           [u0; u1; u2; u3]) [j; b; i; k]).
  { unfold read, address. cbn -[Nat.mul Nat.add]. f_equal. cbn. lia. }
  rewrite Hr3 by assumption.
  unfold forward_value, second_sweep, gen_between.
  rewrite Hg2, Hg1.
  f_equal. f_equal. f_equal.
  unfold slice. apply map_ext_in. intros i1 Hi1.
  apply map_ext_in. intros k1 Hk1. apply in_seq in Hi1, Hk1.
  transitivity (read s2 (mkTensor vl vo [H'; B; W'; 2 * hidden_dim self]
                           [v0; v1; v2; v3]) [i1; b; j; k1]).
  { unfold read, address. cbn -[Nat.mul Nat.add]. f_equal. cbn. lia. }
  rewrite Hr2 by lia.
  unfold first_sweep. rewrite Hg1, Hws. cbn [fst].
  f_equal. f_equal. f_equal.
  unfold slice. apply map_ext_in. intros j1 Hj1.
  unfold patch_vector. apply map_ext_in. intros f Hf. apply in_seq in Hj1, Hf.
  destruct (div_mod_window ws C f Hpos ltac:(lia)) as (Hc & Hr & Hq & Ef).
  set (c := f / (ws * ws)) in *. set (r := (f / ws) mod ws) in *.
  set (q := f mod ws) in *.
  transitivity (read s1 (mkTensor pl po [B; ws * ws * C; H'; W'] [p0; p1; p2; p3])
                        [b; (c * ws + r) * ws + q; i1; j1]).
  { rewrite <- Ef. unfold read, address. cbn -[Nat.mul Nat.add]. f_equal. cbn. lia. }
  apply Hr1; lia.
Qed.

(** ** The layer only allocates *)

(** Whatever its outcome, [c] leaves every existing storage in place. *)
Definition allocates_only {X} (c : M X) : Prop :=
  forall s, extends s (snd (c s)).

Lemma allocates_ret {X} (x : X) : allocates_only (ret x).
Proof. intros s. apply extends_refl. Qed.

Lemma allocates_lift {X} (r : result X) : allocates_only (lift r).
Proof. intros s. apply extends_refl. Qed.

Lemma allocates_get_state : allocates_only get_state.
Proof. intros s. apply extends_refl. Qed.

Lemma allocates_set_gen (g : G) : allocates_only (set_gen g).
Proof. intros s. exists []. cbn. rewrite app_nil_r. reflexivity. Qed.

Lemma allocates_alloc (data : list A) : allocates_only (alloc data).
Proof. intros s. eexists. reflexivity. Qed.

Lemma allocates_bind {X Y} (c : M X) (k : X -> M Y) :
  allocates_only c -> (forall x, allocates_only (k x)) ->
  allocates_only (bind c k).
Proof.
  intros Hc Hk s. unfold bind. specialize (Hc s).
  destruct (c s) as [[x|e] s1]; cbn [snd] in *.
  - eapply extends_trans; [exact Hc|apply Hk].
  - exact Hc.
Qed.

Ltac frame_step :=
  first
    [ apply allocates_ret
    | apply allocates_lift
    | apply allocates_get_state
    | apply allocates_set_gen
    | apply allocates_alloc
    | apply allocates_bind; [|intros ?]
    | match goal with
      | |- allocates_only (if ?b then _ else _) => destruct b
      | |- allocates_only (match ?x with _ => _ end) => destruct x
      | |- allocates_only (let '(_, _) := ?x in _) => destruct x
      end ].

Lemma allocates_tabulate (sh : list nat) (f : list nat -> A) :
  allocates_only (tabulate sh f).
Proof. unfold tabulate. repeat frame_step. Qed.

Lemma allocates_contiguous (t : Tensor) : allocates_only (contiguous t).
Proof. unfold contiguous. repeat (apply allocates_tabulate || frame_step). Qed.

Lemma allocates_zeros (sh : list nat) : allocates_only (zeros sh).
Proof. apply allocates_tabulate. Qed.

Lemma allocates_cat (ts : list Tensor) (dim : nat) : allocates_only (cat ts dim).
Proof. unfold cat. repeat (apply allocates_tabulate || frame_step). Qed.

Lemma allocates_rnn_call (m : RNNModule) (tr : bool) (inp : Tensor)
    (hx : Hidden) : allocates_only (rnn_call m tr inp hx).
Proof. unfold rnn_call. repeat (apply allocates_tabulate || frame_step). Qed.

Lemma allocates_get_init_hidden (self : ReNetLayer) (x : Tensor) (stack : nat) :
  allocates_only (get_init_hidden self x stack).
Proof.
  unfold get_init_hidden, to_device. repeat (apply allocates_zeros || frame_step).
Qed.

Lemma allocates_get_valid_patches (self : ReNetLayer) (x : Tensor) :
  allocates_only (get_valid_patches self x).
Proof.
  unfold get_valid_patches. repeat (apply allocates_contiguous || frame_step).
Qed.

Lemma allocates_apply_one_direction (self : ReNetLayer) (x : Tensor)
    (m : RNNModule) (stack : nat) :
  allocates_only (apply_one_direction self x m stack).
Proof.
  unfold apply_one_direction.
  repeat first [ apply allocates_cat | apply allocates_contiguous
               | apply allocates_get_init_hidden | apply allocates_rnn_call
               | frame_step ].
Qed.

Lemma allocates_forward (self : ReNetLayer) (x : Tensor) :
  allocates_only (forward self x).
Proof.
  unfold forward.
  repeat first [ apply allocates_get_valid_patches
               | apply allocates_apply_one_direction | frame_step ].
Qed.

(** ** Weight initialisation *)

(** One call of the initialiser on what the module holds under the name
    [p]. *)
Definition update_param (fn : Callable) (p : string) (m : RNNModule)
  : M RNNModule :=
  a <- lift (module_getattr m p) ;;
  call fn m p a.

(** The names the initialiser is called on, in call order. *)
Definition weight_names (m : RNNModule) : list string :=
  List.filter (contains "weight") (concat (_all_weights m)).

Lemma for_each_app {X S} (xs ys : list X) (body : X -> S -> M S) (acc : S)
    (s : State) :
  for_each (xs ++ ys) body acc s =
  match for_each xs body acc s with
  | (Ok a, s1) => for_each ys body a s1
  | (Raise e, s1) => (Raise e, s1)
  end.
Proof.
  revert acc s. induction xs as [|x xs IH]; intros acc s; [reflexivity|].
  cbn [app for_each]. unfold bind.
  destruct (body x acc s) as [[acc1|e] s1]; [|reflexivity].
  apply IH.
Qed.

(** The body of the inner loop of [apply]. *)
Definition visit (fn : Callable) (p : string) (m : RNNModule)
  : M RNNModule :=
  if contains "weight" p then update_param fn p m else ret m.

Lemma for_each_filter (fn : Callable) (ps : list string)
    (m : RNNModule) (s : State) :
  for_each ps (visit fn) m s =
  for_each (List.filter (contains "weight") ps) (update_param fn) m s.
Proof.
  revert m s. induction ps as [|p ps IH]; intros m s; [reflexivity|].
  cbn [for_each List.filter]. unfold visit at 1.
  destruct (contains "weight" p).
  - cbn [for_each]. unfold bind.
    destruct (update_param fn p m s) as [[m1|e] s1]; [apply IH|reflexivity].
  - unfold bind. cbn. apply IH.
Qed.

Lemma for_each_nested (fn : Callable) (ls : list (list string))
    (m : RNNModule) (s : State) :
  for_each ls (fun layer_p m => for_each layer_p (visit fn) m) m s =
  for_each (List.filter (contains "weight") (concat ls)) (update_param fn) m s.
Proof.
  revert m s. induction ls as [|l ls IH]; intros m s; [reflexivity|].
  cbn [for_each concat]. rewrite List.filter_app, for_each_app.
  unfold bind at 1. rewrite for_each_filter.
  destruct (for_each _ (update_param fn) m s) as [[m1|e] s1]; [apply IH|reflexivity].
Qed.

(** The loop of [apply] over one module calls the initialiser once for each
    listed name that contains 'weight', and for no other. *)
Lemma apply_module_calls (fn : Callable) (m : RNNModule) (s : State) :
  apply_module fn m s = for_each (weight_names m) (update_param fn) m s.
Proof. apply (for_each_nested fn (_all_weights m) m s). Qed.

(** The three ways one call of the initialiser can return: on a parameter,
    on a buffer, or on a sub-module. *)
Lemma update_param_inv (fn : Callable) (p : string) (m m' : RNNModule)
    (s s' : State) :
  update_param fn p m s = (Ok m', s') ->
  (exists v v', params m !! p = Some v /\
     call_tensor fn v s = (Ok v', s') /\ m' = set_param m p v') \/
  (exists v v', params m !! p = None /\ buffers m !! p = Some v /\
     call_tensor fn v s = (Ok v', s') /\ m' = set_buffer m p v') \/
  (params m !! p = None /\ buffers m !! p = None /\ p ∈ submodules m /\
     call_module fn p s = (Ok tt, s') /\ m' = m).
Proof.
  unfold update_param, bind, lift, module_getattr, call.
  destruct (params m !! p) as [v|] eqn:Hp.
  - unfold bind, ret. destruct (call_tensor fn v s) as [[v'|e] s1] eqn:Hc;
      [|discriminate].
    intros [= <- <-]. left. exists v, v'. repeat split; assumption.
  - destruct (buffers m !! p) as [v|] eqn:Hb.
    + unfold bind, ret. destruct (call_tensor fn v s) as [[v'|e] s1] eqn:Hc;
        [|discriminate].
      intros [= <- <-]. right. left. exists v, v'. repeat split; assumption.
    + destruct (decide (p ∈ submodules m)) as [Hin|Hin]; [|discriminate].
      unfold bind, ret. destruct (call_module fn p s) as [[[]|e] s1] eqn:Hc;
        [|discriminate].
      intros [= <- <-]. right. right. repeat split; assumption.
Qed.

Lemma weight_names_contain (m : RNNModule) (p : string) :
  In p (weight_names m) <->
  In p (concat (_all_weights m)) /\ contains "weight" p = true.
Proof. unfold weight_names. apply filter_In. Qed.

(** ** Properties of the layer *)

(** [x] is a tensor of shape [sh] held in state [s], with one stride per
    dimension. *)
Definition tensor_in (s : State) (x : Tensor) (sh : list nat) : Prop :=
  shape x = sh /\ length (stride x) = length sh /\ valid s x.

Lemma divides_le (n ws : nat) : 0 < ws -> 0 < n -> n mod ws = 0 -> ws <= n.
Proof.
  intros Hws Hn Hmod. pose proof (Nat.div_mod_eq n ws) as E.
  rewrite Hmod in E. destruct (n / ws) as [|k]; [lia|nia].
Qed.

(** The feature vector of a patch is read from the pixels of that patch
    only. *)
Lemma patch_vector_local (rd rd' : list nat -> A) (ws C b i j : nat) :
  0 < ws ->
  (forall c r q, c < C -> r < ws -> q < ws ->
     rd' [b; c; i * ws + r; j * ws + q] = rd [b; c; i * ws + r; j * ws + q]) ->
  patch_vector rd' ws C b i j = patch_vector rd ws C b i j.
Proof.
  intros Hws Hagree. unfold patch_vector. apply map_ext_in.
  intros f Hf. apply in_seq in Hf.
  destruct (div_mod_window ws C f Hws ltac:(lia)) as (Hc & Hr & Hq & _).
  apply Hagree; assumption.
Qed.

Lemma patches_feature_vector (self : ReNetLayer) (x p : Tensor) (s s' : State)
    (B C H W ws : nat) :
  0 < ws ->
  (forall b c r q i j,
      b < B -> c < C -> r < ws -> q < ws -> i < H / ws -> j < W / ws ->
      read s' p [b; (c * ws + r) * ws + q; i; j] =
      read s x [b; c; i * ws + r; j * ws + q]) ->
  forall b i j, b < B -> i < H / ws -> j < W / ws ->
    map (fun f => read s' p [b; f; i; j]) (seq 0 (ws * ws * C)) =
    patch_vector (read s x) ws C b i j.
Proof.
  intros Hws Hr b i j Hb Hi Hj. unfold patch_vector. apply map_ext_in.
  intros f Hf. apply in_seq in Hf.
  destruct (div_mod_window ws C f Hws ltac:(lia)) as (Hc & Hr' & Hq & Ef).
  rewrite Ef at 1. apply Hr; assumption.
Qed.

(** C5 (as amended): on a non-empty batch of non-empty images whose height
    and width are multiples of the window size, patch extraction returns a
    tensor of shape (B, ws * ws * C, H / ws, W / ws); the feature vector at
    grid position (i, j) lists, channel by channel and row by row, the
    pixels of rows i*ws .. i*ws+ws-1 and columns j*ws .. j*ws+ws-1, and it
    is determined by those pixels alone. *)
Theorem get_valid_patches_correct (self : ReNetLayer) (x : Tensor) (s : State)
    (B C H W ws : nat) :
  window_size self = (ws, ws) -> tensor_in s x [B; C; H; W] ->
  0 < B -> 0 < H -> 0 < W -> 0 < ws -> H mod ws = 0 -> W mod ws = 0 ->
  exists p s',
    get_valid_patches self x s = (Ok p, s') /\
    shape p = [B; ws * ws * C; H / ws; W / ws] /\
    forall b i j, b < B -> i < H / ws -> j < W / ws ->
      map (fun f => read s' p [b; f; i; j]) (seq 0 (ws * ws * C)) =
      patch_vector (read s x) ws C b i j /\
      (forall c r q, c < C -> r < ws -> q < ws ->
         read s' p [b; (c * ws + r) * ws + q; i; j] =
         read s x [b; c; i * ws + r; j * ws + q]) /\
      (forall rd,
         (forall c r q, c < C -> r < ws -> q < ws ->
            rd [b; c; i * ws + r; j * ws + q] =
            read s x [b; c; i * ws + r; j * ws + q]) ->
         map (fun f => read s' p [b; f; i; j]) (seq 0 (ws * ws * C)) =
         patch_vector rd ws C b i j).
Proof.
  intros Hws (Hsh & Hst & Hv) HB HH HW Hpos HmH HmW.
  destruct (get_valid_patches_spec self x s B C H W ws Hws Hsh Hst Hv HB Hpos
              (divides_le H ws Hpos HH HmH) (divides_le W ws Hpos HW HmW))
    as (p & s' & Hrun & Hp & _ & _ & _ & _ & Hr).
  exists p, s'. split; [exact Hrun|]. split; [exact Hp|].
  intros b i j Hb Hi Hj.
  pose proof (patches_feature_vector self x p s s' B C H W ws Hpos Hr b i j Hb Hi Hj)
    as Hvec.
  split; [exact Hvec|]. split.
  - intros c r q Hc Hr' Hq. apply Hr; assumption.
  - intros rd Hrd. rewrite Hvec. symmetry. apply patch_vector_local; assumption.
Qed.

(** C2 (as amended): patch extraction does not check divisibility.  When
    the window fits (ws <= H and ws <= W) it returns (B, ws * ws * C,
    H / ws, W / ws) with rounded-down quotients, reading no row or column
    beyond the last full window; it raises only when the window is larger
    than the height or the width. *)
Theorem get_valid_patches_truncates (self : ReNetLayer) (x : Tensor)
    (s : State) (B C H W ws : nat) :
  window_size self = (ws, ws) -> tensor_in s x [B; C; H; W] ->
  0 < B -> 0 < ws ->
  (ws <= H -> ws <= W ->
   exists p s',
     get_valid_patches self x s = (Ok p, s') /\
     shape p = [B; ws * ws * C; H / ws; W / ws] /\
     forall b i j, b < B -> i < H / ws -> j < W / ws ->
       map (fun f => read s' p [b; f; i; j]) (seq 0 (ws * ws * C)) =
       patch_vector (read s x) ws C b i j) /\
  (H < ws \/ W < ws ->
   get_valid_patches self x s = (Raise RuntimeError, s)).
Proof.
  intros Hws (Hsh & Hst & Hv) HB Hpos. split.
  - intros HH HW.
    destruct (get_valid_patches_spec self x s B C H W ws Hws Hsh Hst Hv HB Hpos HH HW)
      as (p & s' & Hrun & Hp & _ & _ & _ & _ & Hr).
    exists p, s'. split; [exact Hrun|]. split; [exact Hp|].
    eapply patches_feature_vector; eassumption.
  - intros Hsmall.
    destruct x as [loc off sh st]. cbn [shape stride] in Hsh, Hst. subst sh.
    destruct st as [|x0 [|x1 [|x2 [|x3 [|? ?]]]]]; try discriminate Hst.
    unfold get_valid_patches, bind, lift, unfold. rewrite Hws.
    cbn -[Nat.ltb Nat.eqb Nat.div Nat.sub Nat.mul].
    destruct (Nat.ltb_spec H ws) as [HH|HH]; [reflexivity|].
    destruct (Nat.eqb_spec ws 0) as [E|_]; [lia|].
    cbn -[Nat.ltb Nat.eqb Nat.div Nat.sub Nat.mul].
    destruct (Nat.ltb_spec W ws) as [HW|HW]; [reflexivity|lia].
Qed.

(** C1 (as amended): for a layer with window size [ws] and hidden size [d],
    built for [C] input channels, and a non-empty batch of non-empty
    [C]-channel images whose height and width are multiples of [ws], the
    layer returns a tensor of shape (B, 2 * d, H / ws, W / ws), whatever
    [C] is. *)
Theorem forward_shape (self : ReNetLayer) (x : Tensor) (s : State)
    (B C H W ws : nat) :
  layer_ok self ws C -> tensor_in s x [B; C; H; W] ->
  0 < B -> 0 < H -> 0 < W -> 0 < ws -> H mod ws = 0 -> W mod ws = 0 ->
  exists out s',
    forward self x s = (Ok out, s') /\
    shape out = [B; 2 * hidden_dim self; H / ws; W / ws].
Proof.
  intros Hok (Hsh & Hst & Hv) HB HH HW Hpos HmH HmW.
  destruct (forward_spec self x s B C H W ws Hok Hsh Hst Hv HB Hpos
              (divides_le H ws Hpos HH HmH) (divides_le W ws Hpos HW HmW))
    as (out & s' & Hrun & Hout & _).
  exists out, s'. split; assumption.
Qed.

(** The tensors of an initial state. *)
Definition hidden_tensors (hx : Hidden) : list Tensor :=
  match hx with
  | HTensor h => [h]
  | HPair h c => [h; c]
  end.

Lemma map_const_repeat {X Y} (c : Y) (l : list X) :
  map (fun _ => c) l = repeat c (length l).
Proof. induction l as [|a l IH]; [reflexivity|]. cbn. rewrite IH. reflexivity. Qed.

(** [t] is a row-major tensor of shape [sh] that fills a storage of its own:
    the storage holds as many elements as the shape has, every one of them
    zero. *)
Definition zero_filled (s : State) (t : Tensor) (sh : list nat) : Prop :=
  shape t = sh /\ offset t = 0 /\ stride t = contiguous_strides sh /\
  store s !! storage t = Some (repeat zero (numel sh)).

(** The storages [get_init_hidden] allocates hold zeros, as many as the
    shape has elements. *)
Lemma get_init_hidden_zero_filled (self : ReNetLayer) (x : Tensor)
    (stack n : nat) (s s' : State) (hx : Hidden) :
  size x 1 = Ok n ->
  get_init_hidden self x stack s = (Ok hx, s') ->
  Forall (fun t => zero_filled s' t [2 * stack; n; hidden_dim self])
         (hidden_tensors hx).
Proof.
  intros Hn Hrun.
  unfold get_init_hidden, to_device, zeros, tabulate, alloc, bind, lift, ret
    in Hrun.
  rewrite Hn in Hrun.
  set (sh := [2 * stack; n; hidden_dim self]) in *. clearbody sh.
  destruct (String.eqb _ _); injection Hrun as <- <-;
    cbn [hidden_tensors]; unfold zero_filled;
    cbn [store storage shape offset stride];
    rewrite ?map_const_repeat, ?length_indices.
  - constructor; [|constructor; [|constructor]].
    + split; [reflexivity|]. split; [reflexivity|]. split; [reflexivity|].
      rewrite lookup_app_l by (rewrite length_app; cbn; lia).
      apply list_lookup_middle. reflexivity.
    + split; [reflexivity|]. split; [reflexivity|]. split; [reflexivity|].
      apply list_lookup_middle. rewrite length_app. reflexivity.
  - constructor; [|constructor].
    split; [reflexivity|]. split; [reflexivity|]. split; [reflexivity|].
    apply list_lookup_middle. reflexivity.
Qed.

(** C6: for a reference tensor [x] with a second dimension of length [n]
    and a stack depth [stack], the initial state is a pair of all-zero
    tensors of shape (2 * stack, n, hidden_dim) when [rnn_type] is "LSTM",
    and one such tensor for every other [rnn_type].  All-zero is stated
    twice: every element read at an index within the shape is zero, and the
    tensor is row-major over a storage of its own that holds exactly
    2 * stack * n * hidden_dim zeros.  With stack sizes (2, 3) the leading
    dimensions are 4 for the first sweep and 6 for the second. *)
Theorem get_init_hidden_zero_state (self : ReNetLayer) (x : Tensor)
    (stack n : nat) (s : State) :
  size x 1 = Ok n ->
  (exists hx s',
     get_init_hidden self x stack s = (Ok hx, s') /\
     Forall (fun t => is_zeros s' t [2 * stack; n; hidden_dim self] /\
                      zero_filled s' t [2 * stack; n; hidden_dim self])
            (hidden_tensors hx) /\
     (rnn_type self = "LSTM" -> exists h0 c0, hx = HPair h0 c0) /\
     (rnn_type self <> "LSTM" -> exists h0, hx = HTensor h0)) /\
  (stack_size self = (2, 3) ->
   (exists hx s', get_init_hidden self x (fst (stack_size self)) s = (Ok hx, s') /\
      Forall (fun t => nth 0 (shape t) 0 = 4) (hidden_tensors hx)) /\
   (exists hx s', get_init_hidden self x (snd (stack_size self)) s = (Ok hx, s') /\
      Forall (fun t => nth 0 (shape t) 0 = 6) (hidden_tensors hx))).
Proof.
  intros Hn.
  assert (Hgen : forall k, exists hx s',
             get_init_hidden self x k s = (Ok hx, s') /\
             Forall (fun t => is_zeros s' t [2 * k; n; hidden_dim self] /\
                              zero_filled s' t [2 * k; n; hidden_dim self])
                    (hidden_tensors hx) /\
             (rnn_type self = "LSTM" -> exists h0 c0, hx = HPair h0 c0) /\
             (rnn_type self <> "LSTM" -> exists h0, hx = HTensor h0)).
  { intros k.
    destruct (get_init_hidden_spec self x k n s Hn) as (hx & s' & Hrun & _ & _ & Hhx).
    pose proof (get_init_hidden_zero_filled self x k n s s' hx Hn Hrun) as Hfill.
    exists hx, s'. split; [exact Hrun|].
    destruct (String.eqb_spec (rnn_type self) "LSTM") as [E|E].
    - destruct Hhx as (h0 & c0 & -> & Hh & Hc).
      cbn [hidden_tensors] in *.
      inversion Hfill as [|? ? Fh Hfill']; subst.
      inversion Hfill' as [|? ? Fc _]; subst.
      split; [repeat (constructor; [split; assumption|]); constructor|].
      split; [eauto|contradiction].
    - destruct Hhx as (h0 & -> & Hh).
      cbn [hidden_tensors] in *.
      inversion Hfill as [|? ? Fh _]; subst.
      split; [repeat (constructor; [split; assumption|]); constructor|].
      split; [contradiction|eauto]. }
  split; [apply Hgen|].
  intros Hstack. rewrite Hstack. cbn [fst snd]. split.
  - destruct (Hgen 2) as (hx & s' & Hrun & Hz & _). exists hx, s'.
    split; [exact Hrun|]. eapply Forall_impl; [exact Hz|].
    intros t ((Hsh & _) & _). rewrite Hsh. reflexivity.
  - destruct (Hgen 3) as (hx & s' & Hrun & Hz & _). exists hx, s'.
    split; [exact Hrun|]. eapply Forall_impl; [exact Hz|].
    intros t ((Hsh & _) & _). rewrite Hsh. reflexivity.
Qed.

(** C10: a call of the layer, whether it returns or raises, leaves the
    input tensor as it was: the storage the input views is still in the
    store with the same content, so every element reads the same. *)
Theorem forward_leaves_input (self : ReNetLayer) (x : Tensor) (s : State) :
  valid s x ->
  extends s (snd (forward self x s)) /\
  nth (storage x) (store (snd (forward self x s))) [] =
  nth (storage x) (store s) [] /\
  forall idx, read (snd (forward self x s)) x idx = read s x idx.
Proof.
  intros Hv. pose proof (allocates_forward self x s) as He.
  split; [exact He|]. split.
  - destruct He as [ext ->]. apply app_nth1. exact Hv.
  - intros idx. apply read_extends; assumption.
Qed.

Lemma bind_ok_inv {X Y} (c : M X) (k : X -> M Y) (s s' : State) (y : Y) :
  bind c k s = (Ok y, s') ->
  exists x s1, c s = (Ok x, s1) /\ k x s1 = (Ok y, s').
Proof.
  unfold bind. destruct (c s) as [[x|e] s1]; [|discriminate].
  intros H. exists x, s1. split; [reflexivity|exact H].
Qed.

Lemma bind_ok {X Y} (c : M X) (k : X -> M Y) (s s1 : State) (x : X) :
  c s = (Ok x, s1) -> bind c k s = k x s1.
Proof. intros H. unfold bind. rewrite H. reflexivity. Qed.

Lemma bind_raise {X Y} (c : M X) (k : X -> M Y) (s s1 : State) (e : PyError) :
  c s = (Raise e, s1) -> bind c k s = (Raise e, s1).
Proof. intros H. unfold bind. rewrite H. reflexivity. Qed.

(** A construction that returns went through a recurrent class: both
    constructor calls returned a module, and [apply] ran on the layer made
    of them. *)
Lemma init_inv (ws d : nat) (rnn : string)
    (stack : nat * nat) (C : nat) (b : bool) (p : Q) (s s' : State)
    (self : ReNetLayer) :
  __init__ ws d rnn stack C b p s = (Ok self, s') ->
  exists cls first0 second0 s1 s2,
    nn rnn = Some (RecurrentClass cls) /\
    rnn_new cls (ws * ws * C) d true true (fst stack) p b s = (Ok first0, s1) /\
    rnn_new cls (2 * d) d true true (snd stack) p b s1 = (Ok second0, s2) /\
    apply (mkLayer (ws, ws) rnn d first0 second0 stack true) xavier_uniform_ s2 =
      (Ok self, s').
Proof.
  intros Hrun. unfold __init__ in Hrun.
  apply bind_ok_inv in Hrun as (a & t0 & H0 & Hrun).
  apply bind_ok_inv in Hrun as (first & t1 & H1 & Hrun).
  apply bind_ok_inv in Hrun as (a' & t1' & H0' & Hrun).
  apply bind_ok_inv in Hrun as (second & t2 & H2 & Hrun).
  unfold lift, nn_getattr in H0, H0'.
  destruct (nn rnn) as [a0|] eqn:Hnn; [|discriminate H0].
  injection H0 as <- <-. injection H0' as <- <-.
  destruct a0 as [cls|called]; cbn [nn_call fst snd] in H1, H2.
  - apply bind_ok_inv in H1 as (first0 & s1 & H1 & E1).
    apply bind_ok_inv in H2 as (second0 & s2 & H2 & E2).
    unfold ret in E1, E2. injection E1 as <- <-. injection E2 as <- <-.
    exists cls, first0, second0, s1, s2.
    split; [reflexivity|]. split; [exact H1|]. split; [exact H2|]. exact Hrun.
  - apply bind_ok_inv in H1 as (u & s1 & H1 & E1).
    unfold ret in E1. injection E1 as <- <-. discriminate Hrun.
Qed.

(** C9 (as amended): when [rnn] names no recurrent class of the library,
    construction raises and returns no layer.  The exception is the
    attribute error of [getattr], with nothing allocated, when the
    namespace has no attribute of that name.  When the name is bound to
    something else, it is whatever the call of that attribute with the
    layer's arguments raises; and if both such calls return, it is the
    attribute error of the [_all_weights] lookup that starts the weight
    initialisation. *)
Theorem init_unknown_rnn_raises (ws d : nat) (rnn : string)
    (stack : nat * nat) (C : nat) (b : bool) (p : Q) (s : State) :
  (forall cls, nn rnn <> Some (RecurrentClass cls)) ->
  (exists e s', __init__ ws d rnn stack C b p s = (Raise e, s')) /\
  (nn rnn = None ->
   __init__ ws d rnn stack C b p s = (Raise AttributeError, s)) /\
  (forall called, nn rnn = Some (OtherAttr called) ->
     (forall e s1, called s = (Raise e, s1) ->
        __init__ ws d rnn stack C b p s = (Raise e, s1)) /\
     (forall s1 e s2, called s = (Ok tt, s1) -> called s1 = (Raise e, s2) ->
        __init__ ws d rnn stack C b p s = (Raise e, s2)) /\
     (forall s1 s2, called s = (Ok tt, s1) -> called s1 = (Ok tt, s2) ->
        __init__ ws d rnn stack C b p s = (Raise AttributeError, s2))).
Proof.
  intros Hnot.
  assert (Hother : forall called, nn rnn = Some (OtherAttr called) ->
     (forall e s1, called s = (Raise e, s1) ->
        __init__ ws d rnn stack C b p s = (Raise e, s1)) /\
     (forall s1 e s2, called s = (Ok tt, s1) -> called s1 = (Raise e, s2) ->
        __init__ ws d rnn stack C b p s = (Raise e, s2)) /\
     (forall s1 s2, called s = (Ok tt, s1) -> called s1 = (Ok tt, s2) ->
        __init__ ws d rnn stack C b p s = (Raise AttributeError, s2))).
  { intros called Hnn.
    unfold __init__, nn_getattr. rewrite Hnn.
    unfold bind, lift, ret, nn_call. cbv beta iota. unfold bind, ret.
    split; [|split].
    - intros e s1 H1. rewrite H1. reflexivity.
    - intros s1 e s2 H1 H2. rewrite H1. cbv beta iota. rewrite H2. reflexivity.
    - intros s1 s2 H1 H2. rewrite H1. cbv beta iota. rewrite H2. reflexivity. }
  assert (Hnone : nn rnn = None ->
            __init__ ws d rnn stack C b p s = (Raise AttributeError, s)).
  { intros Hnn. unfold __init__. apply bind_raise.
    unfold lift, nn_getattr. rewrite Hnn. reflexivity. }
  split; [|split; assumption].
  destruct (nn rnn) as [[cls|called]|] eqn:Hnn.
  - exfalso. apply (Hnot cls). reflexivity.
  - destruct (Hother called eq_refl) as (Hr & Hor & Hoo).
    destruct (called s) as [[[]|e] s1] eqn:H1.
    + destruct (called s1) as [[[]|e] s2] eqn:H2.
      * exists AttributeError, s2. apply (Hoo s1 s2); [reflexivity|exact H2].
      * exists e, s2. apply (Hor s1 e s2); [reflexivity|exact H2].
    + exists e, s1. apply Hr. reflexivity.
  - exists AttributeError, s. apply Hnone. reflexivity.
Qed.






(** What [apply_one_direction] does with its axes: the output at dim-0
    position [i] and batch position [b] is computed from the input's slice
    at (i, b) alone, the sequence running along dim 2.  Two inputs that
    agree on that slice give outputs that agree on it, wherever else they
    differ. *)
Lemma apply_one_direction_local (self : ReNetLayer) (x x' : Tensor)
    (m : RNNModule) (stack S B O F : nat) (s : State) (i b : nat) :
  tensor_in s x [S; B; O; F] -> tensor_in s x' [S; B; O; F] ->
  0 < S -> 0 < B -> 0 < O -> module_fits self m F stack ->
  i < S -> b < B ->
  (forall t k, t < O -> k < F -> read s x [i; b; t; k] = read s x' [i; b; t; k]) ->
  exists out s1 out' s1',
    apply_one_direction self x m stack s = (Ok out, s1) /\
    apply_one_direction self x' m stack s = (Ok out', s1') /\
    forall t k, t < O -> k < 2 * hidden_dim self ->
      read s1 out [i; b; t; k] = read s1' out' [i; b; t; k].
Proof.
  intros (Hsh & Hst & Hv) (Hsh' & Hst' & Hv') HS HB HO Hfit Hi Hb Hagree.
  destruct (apply_one_direction_spec self x m stack S B O F s
              Hsh Hst Hv HS HB HO Hfit)
    as (out & s1 & Hrun & _ & _ & _ & _ & _ & Hr).
  destruct (apply_one_direction_spec self x' m stack S B O F s
              Hsh' Hst' Hv' HS HB HO Hfit)
    as (out' & s1' & Hrun' & _ & _ & _ & _ & _ & Hr').
  exists out, s1, out', s1'. split; [exact Hrun|]. split; [exact Hrun'|].
  intros t k Ht Hk. rewrite Hr, Hr' by assumption.
  f_equal. f_equal. f_equal. unfold slice.
  apply map_ext_in. intros t1 Ht1. apply map_ext_in. intros k1 Hk1.
  apply in_seq in Ht1, Hk1. apply Hagree; lia.
Qed.

(** The recurrent module [m] does not consult the random generator. *)
Definition gen_irrelevant (m : RNNModule) (tr : bool) : Prop :=
  forall g g' b h c xs, rnn_seq m tr g b h c xs = rnn_seq m tr g' b h c xs.

Lemma forward_value_ext (self : ReNetLayer) (rd rd' : list nat -> A)
    (g g' : G) (B C H' W' b k i j : nat) :
  (forall idx, rd idx = rd' idx) ->
  gen_irrelevant (firstVRNN self) (training self) ->
  gen_irrelevant (secondHRNN self) (training self) ->
  forward_value self rd g B C H' W' b k i j =
  forward_value self rd' g' B C H' W' b k i j.
Proof.
  intros Hrd H1 H2. unfold forward_value, second_sweep.
  rewrite (H2 _ (gen_between self g' B H' W')).
  f_equal. f_equal. f_equal.
  apply map_ext. intros i1. apply map_ext. intros k1.
  f_equal. f_equal. unfold first_sweep. rewrite (H1 _ g').
  f_equal. apply map_ext. intros j1. unfold patch_vector.
  apply map_ext. intros f. apply Hrd.
Qed.

(** C8 (as amended): when dropout is inactive in both recurrent modules,
    so that the library's recurrent network does not draw from the random
    generator, two successive calls of the layer on the same input, with the
    layer unchanged in between, return tensors of the same shape with the
    same elements. *)
Theorem forward_deterministic (self : ReNetLayer) (x : Tensor) (s : State)
    (B C H W ws : nat) :
  (forall m tr, dropout_active m tr = false -> gen_irrelevant m tr) ->
  dropout_active (firstVRNN self) (training self) = false ->
  dropout_active (secondHRNN self) (training self) = false ->
  layer_ok self ws C -> tensor_in s x [B; C; H; W] ->
  0 < B -> 0 < ws -> ws <= H -> ws <= W ->
  exists y1 s1 y2 s2,
    forward self x s = (Ok y1, s1) /\
    forward self x s1 = (Ok y2, s2) /\
    shape y1 = shape y2 /\
    forall b k i j,
      b < B -> k < 2 * hidden_dim self -> i < H / ws -> j < W / ws ->
      read s1 y1 [b; k; i; j] = read s2 y2 [b; k; i; j].
Proof.
  intros Hlib Hd1 Hd2 Hok (Hsh & Hst & Hv) HB Hpos HH HW.
  destruct (forward_spec self x s B C H W ws Hok Hsh Hst Hv HB Hpos HH HW)
    as (y1 & s1 & Hrun1 & Hs1 & _ & He1 & _ & Hr1).
  destruct (forward_spec self x s1 B C H W ws Hok Hsh Hst
              (valid_extends s s1 x Hv He1) HB Hpos HH HW)
    as (y2 & s2 & Hrun2 & Hs2 & _ & _ & _ & Hr2).
  exists y1, s1, y2, s2. split; [exact Hrun1|]. split; [exact Hrun2|].
  split; [congruence|].
  intros b k i j Hb Hk Hi Hj. rewrite Hr1, Hr2 by assumption.
  apply forward_value_ext; auto.
  intros idx. symmetry. apply read_extends; assumption.
Qed.

(** ** Further properties of the layer *)

(** [c] started in [s] raises [e]. *)
Definition raises {X} (c : M X) (s : State) (e : PyError) : Prop :=
  exists s', c s = (Raise e, s').

Lemma raises_bind {X Y} (c : M X) (k : X -> M Y) (s : State) (e : PyError) :
  returns c s (fun x s1 => raises (k x) s1 e) -> raises (bind c k) s e.
Proof.
  intros (x & s1 & Hc & s' & Hk). exists s'. unfold bind. rewrite Hc. exact Hk.
Qed.

Lemma raises_now {X Y} (c : M X) (k : X -> M Y) (s : State) (e : PyError) :
  raises c s e -> raises (bind c k) s e.
Proof. intros (s' & Hc). exists s'. unfold bind. rewrite Hc. reflexivity. Qed.

(** Patch extraction when the window is larger than the height or the
    width: the shape error of [unfold], before anything is allocated. *)
Lemma get_valid_patches_too_small (self : ReNetLayer) (x : Tensor) (s : State)
    (B C H W ws : nat) :
  window_size self = (ws, ws) ->
  shape x = [B; C; H; W] -> length (stride x) = 4 ->
  H < ws \/ W < ws ->
  get_valid_patches self x s = (Raise RuntimeError, s).
Proof.
  intros Hws Hsh Hst Hsmall.
  destruct x as [loc off sh st]. cbn [shape stride] in Hsh, Hst. subst sh.
  destruct st as [|x0 [|x1 [|x2 [|x3 [|? ?]]]]]; try discriminate Hst.
  unfold get_valid_patches, bind, lift, unfold. rewrite Hws.
  cbn -[Nat.ltb Nat.eqb Nat.div Nat.sub Nat.mul].
  destruct (Nat.ltb_spec H ws) as [HH|HH]; [reflexivity|].
  destruct (Nat.eqb_spec ws 0) as [E|_]; [lia|].
  cbn -[Nat.ltb Nat.eqb Nat.div Nat.sub Nat.mul].
  destruct (Nat.ltb_spec W ws) as [HW|HW]; [reflexivity|lia].
Qed.

(** X1: when the window is larger than the image's height or width, the
    layer raises the shape error of patch extraction; nothing has been
    allocated and the generator has not been used. *)
Theorem forward_window_too_large (self : ReNetLayer) (x : Tensor) (s : State)
    (B C H W ws : nat) :
  window_size self = (ws, ws) ->
  shape x = [B; C; H; W] -> length (stride x) = 4 ->
  H < ws \/ W < ws ->
  forward self x s = (Raise RuntimeError, s).
Proof.
  intros Hws Hsh Hst Hsmall. unfold forward, bind.
  rewrite (get_valid_patches_too_small self x s B C H W ws Hws Hsh Hst Hsmall).
  reflexivity.
Qed.

(** X2: patch extraction accepts 4-D tensors only.  A tensor with fewer
    than three dimensions raises the index error of [unfold]; one with
    three, or with five or more, raises a shape error (from [unfold] or from
    the six-axis [permute]).  In every case nothing is allocated. *)
Theorem get_valid_patches_rank (self : ReNetLayer) (x : Tensor) (s : State) :
  length (stride x) = length (shape x) -> length (shape x) <> 4 ->
  (length (shape x) < 3 ->
   get_valid_patches self x s = (Raise IndexError, s)) /\
  (3 <= length (shape x) ->
   get_valid_patches self x s = (Raise RuntimeError, s)).
Proof.
  intros Hst Hrank. destruct x as [loc off sh st]. cbn [shape stride] in *.
  split; intros Hlen.
  - unfold get_valid_patches, bind, lift, unfold. cbn [shape stride].
    destruct sh as [|a [|b [|c sh]]]; cbn in Hlen; try lia; reflexivity.
  - destruct sh as [|a [|b [|c sh]]]; cbn in Hlen; try lia.
    destruct st as [|s0 [|s1 [|s2 st]]]; try discriminate Hst.
    unfold get_valid_patches, bind, lift, unfold. cbn [shape stride].
    cbn -[Nat.ltb Nat.eqb Nat.div Nat.sub Nat.mul] .
    destruct (c <? fst (window_size self)); [reflexivity|].
    destruct (fst (window_size self) =? 0); [reflexivity|].
    cbn [shape stride storage offset].
    destruct sh as [|d sh].
    + destruct st as [|? ?]; [|discriminate Hst].
      cbn -[Nat.ltb Nat.eqb Nat.div Nat.sub Nat.mul].
      destruct (fst (window_size self) <? snd (window_size self)); [reflexivity|].
      destruct (snd (window_size self) =? 0); reflexivity.
    + destruct st as [|s3 st]; [discriminate Hst|].
      destruct sh as [|e sh]; [cbn in Hrank; lia|].
      cbn -[Nat.ltb Nat.eqb Nat.div Nat.sub Nat.mul].
      destruct (d <? snd (window_size self)); [reflexivity|].
      destruct (snd (window_size self) =? 0); [reflexivity|].
      unfold permute. cbn [shape]. unfold is_perm.
      replace (length [0; 2; 3; 1; 4; 5] =? _) with false; [reflexivity|].
      symmetry. apply Nat.eqb_neq. cbn [length]. rewrite !List.length_app. cbn. lia.
Qed.

(** X3: when the window size divides the height and the width, patch
    extraction only rearranges: the pixel of image [b], channel [c], row [h]
    and column [w] is found in the patch at grid position (h / ws, w / ws),
    at feature (c * ws + h mod ws) * ws + w mod ws, and the result has as
    many elements as the input. *)
Theorem get_valid_patches_rearranges (self : ReNetLayer) (x : Tensor)
    (s : State) (B C H W ws : nat) :
  window_size self = (ws, ws) -> tensor_in s x [B; C; H; W] ->
  0 < B -> 0 < H -> 0 < W -> 0 < ws -> H mod ws = 0 -> W mod ws = 0 ->
  exists p s',
    get_valid_patches self x s = (Ok p, s') /\
    numel (shape p) = numel (shape x) /\
    forall b c h w, b < B -> c < C -> h < H -> w < W ->
      read s x [b; c; h; w] =
      read s' p [b; (c * ws + h mod ws) * ws + w mod ws; h / ws; w / ws].
Proof.
  intros Hws (Hsh & Hst & Hv) HB HH HW Hpos HmH HmW.
  destruct (get_valid_patches_spec self x s B C H W ws Hws Hsh Hst Hv HB Hpos
              (divides_le H ws Hpos HH HmH) (divides_le W ws Hpos HW HmW))
    as (p & s' & Hrun & Hp & _ & _ & _ & _ & Hr).
  exists p, s'. split; [exact Hrun|].
  pose proof (Nat.div_mod_eq H ws) as EH. rewrite HmH in EH.
  pose proof (Nat.div_mod_eq W ws) as EW. rewrite HmW in EW.
  split.
  - rewrite Hp, Hsh. cbn. rewrite EH at 2. rewrite EW at 2. ring.
  - intros b c h w Hb Hc Hh Hw.
    rewrite Hr; try assumption.
    + rewrite (Nat.mul_comm (h / ws)), (Nat.mul_comm (w / ws)),
        <- !Nat.div_mod_eq. reflexivity.
    + apply Nat.mod_upper_bound. lia.
    + apply Nat.mod_upper_bound. lia.
    + apply Nat.Div0.div_lt_upper_bound. lia.
    + apply Nat.Div0.div_lt_upper_bound. lia.
Qed.

(** X4: the contract of one sweep.  On a non-empty 4-D input
    (S, B, O, F) and a recurrent module that fits, [apply_one_direction]
    returns a tensor of shape (S, B, O, 2 * hidden_dim) whose vector at
    (i, b, t) is position [t] of the module's output on the sequence
    x[i, b, 0..O-1, :], started from zero states, as batch element
    i * B + b. *)
Theorem apply_one_direction_contract (self : ReNetLayer) (x : Tensor)
    (m : RNNModule) (stack S B O F : nat) (s : State) :
  tensor_in s x [S; B; O; F] -> 0 < S -> 0 < B -> 0 < O ->
  module_fits self m F stack ->
  exists out s',
    apply_one_direction self x m stack s = (Ok out, s') /\
    shape out = [S; B; O; 2 * hidden_dim self] /\
    forall i b t, i < S -> b < B -> t < O ->
      map (fun k => read s' out [i; b; t; k]) (seq 0 (2 * hidden_dim self)) =
      map (fun k =>
             nth k (nth t (rnn_seq m (training self) (gen s) (i * B + b)
                             (zero_rows (2 * stack) (hidden_dim self))
                             (init_cell self stack)
                             (slice s x O F i b)) []) zero)
          (seq 0 (2 * hidden_dim self)).
Proof.
  intros (Hsh & Hst & Hv) HS HB HO Hfit.
  destruct (apply_one_direction_spec self x m stack S B O F s
              Hsh Hst Hv HS HB HO Hfit)
    as (out & s' & Hrun & Hout & _ & _ & _ & _ & Hr).
  exists out, s'. split; [exact Hrun|]. split; [exact Hout|].
  intros i b t Hi Hb Ht. apply map_ext_in. intros k Hk. apply in_seq in Hk.
  apply Hr; lia.
Qed.

(** X5: what the layer computes.  On a non-empty input whose height and
    width are at least the window size, every element of the output is the
    one of [forward_value]: the first recurrent module runs along each row
    of patches, the second along each column of the first module's
    outputs. *)
Theorem forward_computes (self : ReNetLayer) (x : Tensor) (s : State)
    (B C H W ws : nat) :
  layer_ok self ws C -> tensor_in s x [B; C; H; W] ->
  0 < B -> 0 < ws -> ws <= H -> ws <= W ->
  exists out s',
    forward self x s = (Ok out, s') /\
    forall b k i j,
      b < B -> k < 2 * hidden_dim self -> i < H / ws -> j < W / ws ->
      read s' out [b; k; i; j] =
      forward_value self (read s x) (gen s) B C (H / ws) (W / ws) b k i j.
Proof.
  intros Hok (Hsh & Hst & Hv) HB Hpos HH HW.
  destruct (forward_spec self x s B C H W ws Hok Hsh Hst Hv HB Hpos HH HW)
    as (out & s' & Hrun & _ & _ & _ & _ & Hr).
  exists out, s'. split; [exact Hrun|exact Hr].
Qed.

Lemma forward_value_local (self : ReNetLayer) (rd rd' : list nat -> A)
    (g : G) (B C H' W' ws b k i j : nat) :
  window_size self = (ws, ws) -> 0 < ws ->
  (forall c h w, c < C -> h < H' * ws -> w < W' * ws ->
     rd [b; c; h; w] = rd' [b; c; h; w]) ->
  forward_value self rd g B C H' W' b k i j =
  forward_value self rd' g B C H' W' b k i j.
Proof.
  intros Hws Hpos Hagree. unfold forward_value, second_sweep.
  f_equal. f_equal. f_equal.
  apply map_ext_in. intros i1 Hi1. apply map_ext. intros k1.
  f_equal. f_equal. unfold first_sweep. rewrite Hws. cbn [fst].
  f_equal. apply map_ext_in. intros j1 Hj1. apply in_seq in Hi1, Hj1.
  apply patch_vector_local; [exact Hpos|].
  intros c r q Hc Hr Hq. apply Hagree; [exact Hc|nia|nia].
Qed.

(** X6: what an output depends on.  For two inputs of one shape held in
    the same state, the outputs for image [b] agree whenever the inputs
    agree on image [b] within the rows and columns covered by full windows:
    other images of the batch, and the rows and columns beyond the last
    full window, have no influence. *)
Theorem forward_local (self : ReNetLayer) (x x' : Tensor) (s : State)
    (B C H W ws b : nat) :
  layer_ok self ws C ->
  tensor_in s x [B; C; H; W] -> tensor_in s x' [B; C; H; W] ->
  0 < B -> 0 < ws -> ws <= H -> ws <= W -> b < B ->
  (forall c h w, c < C -> h < H / ws * ws -> w < W / ws * ws ->
     read s x [b; c; h; w] = read s x' [b; c; h; w]) ->
  exists out s1 out' s1',
    forward self x s = (Ok out, s1) /\
    forward self x' s = (Ok out', s1') /\
    forall k i j, k < 2 * hidden_dim self -> i < H / ws -> j < W / ws ->
      read s1 out [b; k; i; j] = read s1' out' [b; k; i; j].
Proof.
  intros Hok (Hsh & Hst & Hv) (Hsh' & Hst' & Hv') HB Hpos HH HW Hb Hagree.
  destruct (forward_spec self x s B C H W ws Hok Hsh Hst Hv HB Hpos HH HW)
    as (out & s1 & Hrun & _ & _ & _ & _ & Hr).
  destruct (forward_spec self x' s B C H W ws Hok Hsh' Hst' Hv' HB Hpos HH HW)
    as (out' & s1' & Hrun' & _ & _ & _ & _ & Hr').
  exists out, s1, out', s1'. split; [exact Hrun|]. split; [exact Hrun'|].
  intros k i j Hk Hi Hj. rewrite Hr, Hr' by assumption.
  destruct Hok as (Hws & _).
  eapply forward_value_local; eassumption.
Qed.

(** A returned tensor lives in a storage allocated by the call. *)
Definition fresh_result (c : M Tensor) : Prop :=
  forall s t s', c s = (Ok t, s') ->
    length (store s) <= storage t < length (store s').

Lemma extends_length (s s' : State) :
  extends s s' -> length (store s) <= length (store s').
Proof. intros [ext ->]. rewrite length_app. lia. Qed.

Lemma fresh_tabulate (sh : list nat) (f : list nat -> A) :
  fresh_result (tabulate sh f).
Proof.
  intros s t s' H. rewrite tabulate_eq in H. injection H as <- <-.
  cbn [storage store]. rewrite length_app. cbn. lia.
Qed.

Lemma fresh_bind {X} (c : M X) (k : X -> M Tensor) :
  allocates_only c -> (forall x, fresh_result (k x)) ->
  fresh_result (bind c k).
Proof.
  intros Hc Hk s t s' H. apply bind_ok_inv in H as (x & s1 & H1 & H2).
  pose proof (Hc s) as He. rewrite H1 in He. cbn [snd] in He.
  apply extends_length in He. apply Hk in H2. lia.
Qed.

Lemma fresh_cat (ts : list Tensor) (dim : nat) : fresh_result (cat ts dim).
Proof.
  unfold cat. destruct ts as [|t0 ts]; [intros s t s' H; discriminate H|].
  destruct (_ && _); [|intros s t s' H; discriminate H].
  apply fresh_bind; [apply allocates_get_state|].
  intros s0. apply fresh_tabulate.
Qed.

Lemma fresh_apply_one_direction (self : ReNetLayer) (x : Tensor)
    (m : RNNModule) (stack : nat) :
  fresh_result (apply_one_direction self x m stack).
Proof.
  unfold apply_one_direction.
  repeat first
    [ apply fresh_cat
    | apply fresh_bind;
      [ first [ apply allocates_cat | apply allocates_contiguous
              | apply allocates_get_init_hidden | apply allocates_rnn_call
              | apply allocates_lift ]
      | intros ? ] ].
Qed.

Lemma permute_storage (t t' : Tensor) (dims : list nat) :
  permute t dims = Ok t' -> storage t' = storage t.
Proof.
  unfold permute. destruct (is_perm _ _); [|discriminate].
  intros [= <-]. reflexivity.
Qed.

(** X7: the tensor the layer returns never shares its storage with the
    input, or with anything that existed before the call: it views a
    storage that the call allocated. *)
Theorem forward_output_fresh (self : ReNetLayer) (x out : Tensor)
    (s s' : State) :
  valid s x -> forward self x s = (Ok out, s') ->
  length (store s) <= storage out < length (store s') /\
  storage out <> storage x.
Proof.
  intros Hv Hrun. unfold forward in Hrun.
  apply bind_ok_inv in Hrun as (p & s1 & H1 & Hrun).
  apply bind_ok_inv in Hrun as (ia & s1' & H2 & Hrun).
  apply bind_ok_inv in Hrun as (v & s2 & H3 & Hrun).
  apply bind_ok_inv in Hrun as (v' & s2' & H4 & Hrun).
  apply bind_ok_inv in Hrun as (fm & s3 & H5 & Hrun).
  apply bind_ok_inv in Hrun as (fmp & s3' & H6 & Hrun).
  unfold lift in H2, H4, H6. unfold ret in Hrun.
  injection H2 as _ <-. injection H4 as _ <-. injection H6 as H6 <-.
  injection Hrun as <- <-.
  pose proof (allocates_get_valid_patches self x s) as E1.
  rewrite H1 in E1. cbn [snd] in E1. apply extends_length in E1.
  pose proof (allocates_apply_one_direction self ia (firstVRNN self)
                (fst (stack_size self)) s1) as E2.
  rewrite H3 in E2. cbn [snd] in E2. apply extends_length in E2.
  apply fresh_apply_one_direction in H5.
  apply permute_storage in H6. unfold valid in Hv. lia.
Qed.

(** X8: [get_init_hidden] on a reference tensor with fewer than two
    dimensions raises the index error of [x.size(1)] and allocates
    nothing; when it returns, the state tensors live in storages of their
    own, allocated by the call, and the hidden and the cell state of the
    memory-cell class do not share one. *)
Theorem get_init_hidden_storages (self : ReNetLayer) (x : Tensor)
    (stack : nat) (s : State) :
  (length (shape x) < 2 ->
   get_init_hidden self x stack s = (Raise IndexError, s)) /\
  (forall hx s', get_init_hidden self x stack s = (Ok hx, s') ->
     Forall (fun t => length (store s) <= storage t < length (store s'))
            (hidden_tensors hx) /\
     NoDup (map storage (hidden_tensors hx))).
Proof.
  split.
  - intros Hlen. unfold get_init_hidden, size, bind, lift.
    destruct (shape x) as [|a [|b sh]]; cbn in Hlen; try lia;
      destruct (String.eqb _ _); reflexivity.
  - intros hx s' Hrun.
    unfold get_init_hidden, to_device, zeros, tabulate, alloc, bind, lift, ret
      in Hrun.
    destruct (String.eqb _ _); destruct (size x 1) as [n|e];
      try discriminate Hrun; injection Hrun as <- <-;
      cbn [hidden_tensors map storage store]; rewrite ?length_app; cbn [length].
    + split.
      * repeat (constructor; [cbn [storage]; lia|]). constructor.
      * apply NoDup_cons_2; [|apply NoDup_cons_2; [|apply NoDup_nil_2]].
        -- intros Hin. inversion Hin as [|? ? ? Hin']; subst; [cbn [storage] in *; lia|inversion Hin'].
        -- intros Hin. inversion Hin.
    + split.
      * repeat (constructor; [cbn [storage]; lia|]). constructor.
      * apply NoDup_cons_2; [|apply NoDup_nil_2].
        intros Hin. inversion Hin.
Qed.

(** Two modules with the same hyperparameters, the same listing of
    parameter names and the same sets of parameters, buffers and
    sub-modules. *)
Definition same_config (m m' : RNNModule) : Prop :=
  mode m' = mode m /\ input_size m' = input_size m /\
  hidden_size m' = hidden_size m /\ num_layers m' = num_layers m /\
  bidirectional m' = bidirectional m /\ batch_first m' = batch_first m /\
  dropout m' = dropout m /\ bias m' = bias m /\
  _all_weights m' = _all_weights m /\
  dom (params m') = dom (params m) /\
  dom (buffers m') = dom (buffers m) /\
  submodules m' = submodules m.

Lemma same_config_refl (m : RNNModule) : same_config m m.
Proof. repeat split. Qed.

Lemma same_config_trans (m1 m2 m3 : RNNModule) :
  same_config m1 m2 -> same_config m2 m3 -> same_config m1 m3.
Proof.
  intros (A1 & A2 & A3 & A4 & A5 & A6 & A7 & A8 & A9 & A10 & A11 & A12)
         (B1 & B2 & B3 & B4 & B5 & B6 & B7 & B8 & B9 & B10 & B11 & B12).
  repeat split; congruence.
Qed.

(** The names [__getattr__] resolves on a module: those of its parameters,
    buffers and sub-modules. *)
Definition registered (m : RNNModule) (p : string) : Prop :=
  is_Some (params m !! p) \/ is_Some (buffers m !! p) \/ p ∈ submodules m.

Lemma update_param_config (fn : Callable) (p : string)
    (m m' : RNNModule) (s s' : State) :
  update_param fn p m s = (Ok m', s') ->
  same_config m m' /\ registered m p /\
  forall q, registered m' q -> registered m q.
Proof.
  intros Hrun.
  apply update_param_inv in Hrun as [(v & v' & Hp & _ & ->)|
                                     [(v & v' & _ & Hb & _ & ->)|
                                      (_ & _ & Hin & _ & ->)]].
  - split; [|split].
    + repeat split. cbn [params set_param].
      rewrite dom_insert_L. apply (elem_of_dom_2 (D := gset string)) in Hp.
      apply subseteq_union_1_L, singleton_subseteq_l. exact Hp.
    + left. eauto.
    + intros q [Hq|Hq]; [|right; exact Hq]. left.
      cbn [params set_param] in Hq.
      apply lookup_insert_is_Some in Hq as [<-|[_ Hq]]; [eauto|exact Hq].
  - split; [|split].
    + repeat split. cbn [buffers set_buffer].
      rewrite dom_insert_L. apply (elem_of_dom_2 (D := gset string)) in Hb.
      apply subseteq_union_1_L, singleton_subseteq_l. exact Hb.
    + right. left. eauto.
    + intros q [Hq|[Hq|Hq]]; [left; exact Hq| |right; right; exact Hq].
      right. left. cbn [buffers set_buffer] in Hq.
      apply lookup_insert_is_Some in Hq as [<-|[_ Hq]]; [eauto|exact Hq].
  - split; [apply same_config_refl|]. split; [|intros q Hq; exact Hq].
    right. right. exact Hin.
Qed.

Lemma for_each_update_config (fn : Callable) (ps : list string)
    (m m' : RNNModule) (s s' : State) :
  for_each ps (update_param fn) m s = (Ok m', s') ->
  same_config m m' /\ (forall p, In p ps -> registered m p) /\
  forall q, registered m' q -> registered m q.
Proof.
  revert m s. induction ps as [|q ps IH]; intros m s Hrun.
  - cbn in Hrun. injection Hrun as <- _. split; [apply same_config_refl|].
    split; [intros p []|intros q Hq; exact Hq].
  - cbn [for_each] in Hrun. apply bind_ok_inv in Hrun as (m1 & s1 & Hq & Hrun).
    apply update_param_config in Hq as (Hc1 & Hreg & Hback1).
    apply IH in Hrun as (Hc2 & Hall & Hback2).
    split; [eapply same_config_trans; eassumption|]. split.
    + intros p [<-|Hin]; [exact Hreg|]. apply Hback1, Hall, Hin.
    + intros p Hp. apply Hback1, Hback2, Hp.
Qed.

Lemma apply_inv (self self' : ReNetLayer) (fn : Callable)
    (s s' : State) :
  apply self fn s = (Ok self', s') ->
  exists s1,
    for_each (weight_names (firstVRNN self)) (update_param fn)
      (firstVRNN self) s = (Ok (firstVRNN self'), s1) /\
    for_each (weight_names (secondHRNN self)) (update_param fn)
      (secondHRNN self) s1 = (Ok (secondHRNN self'), s') /\
    window_size self' = window_size self /\ rnn_type self' = rnn_type self /\
    hidden_dim self' = hidden_dim self /\ stack_size self' = stack_size self /\
    training self' = training self.
Proof.
  intros Hrun. unfold apply in Hrun.
  apply bind_ok_inv in Hrun as (m1 & s1 & H1 & Hrun).
  apply bind_ok_inv in Hrun as (m2 & s2 & H2 & Hrun).
  unfold ret in Hrun. injection Hrun as <- <-.
  rewrite apply_module_calls in H1, H2.
  exists s1. repeat split; assumption.
Qed.

Lemma module_fits_config (self self' : ReNetLayer) (m m' : RNNModule)
    (f stack : nat) :
  same_config m m' -> hidden_dim self' = hidden_dim self ->
  rnn_type self' = rnn_type self ->
  module_fits self m f stack -> module_fits self' m' f stack.
Proof.
  intros (A1 & A2 & A3 & A4 & A5 & A6 & _) Hd Ht (B1 & B2 & B3 & B4 & B5 & B6).
  unfold module_fits. rewrite A1, A2, A3, A4, A5, A6, Hd, Ht.
  repeat split; try assumption; apply B6.
Qed.

(** [apply] changes the values of tensors only.  The layer's own
    attributes, the hyperparameters of both recurrent modules, their
    listings of parameter names and their sets of parameters, buffers and
    sub-modules are the same afterwards; a layer that fitted a window size
    and a channel count still does. *)
Lemma apply_preserves (self self' : ReNetLayer)
    (fn : Callable) (s s' : State) :
  apply self fn s = (Ok self', s') ->
  window_size self' = window_size self /\ rnn_type self' = rnn_type self /\
  hidden_dim self' = hidden_dim self /\ stack_size self' = stack_size self /\
  training self' = training self /\
  same_config (firstVRNN self) (firstVRNN self') /\
  same_config (secondHRNN self) (secondHRNN self') /\
  forall ws C, layer_ok self ws C -> layer_ok self' ws C.
Proof.
  intros Hrun.
  apply apply_inv in Hrun as (s1 & H1 & H2 & Hw & Ht & Hd & Hs & Htr).
  apply for_each_update_config in H1 as (Hc1 & _).
  apply for_each_update_config in H2 as (Hc2 & _).
  split; [exact Hw|]. split; [exact Ht|]. split; [exact Hd|].
  split; [exact Hs|]. split; [exact Htr|]. split; [exact Hc1|].
  split; [exact Hc2|].
  intros ws C (Hok1 & Hok2 & Hok3). unfold layer_ok. rewrite Hw, Hs, Hd.
  split; [exact Hok1|].
  split; eapply module_fits_config; eassumption.
Qed.

(** X9: [apply] changes the values of tensors only.  The layer's own
    attributes, the hyperparameters of both recurrent modules, their
    listings of parameter names and their sets of parameters, buffers and
    sub-modules are the same afterwards; a layer that fitted a window size
    and a channel count still does. *)
Theorem apply_keeps_configuration (self self' : ReNetLayer)
    (fn : Callable) (s s' : State) :
  apply self fn s = (Ok self', s') ->
  window_size self' = window_size self /\ rnn_type self' = rnn_type self /\
  hidden_dim self' = hidden_dim self /\ stack_size self' = stack_size self /\
  training self' = training self /\
  same_config (firstVRNN self) (firstVRNN self') /\
  same_config (secondHRNN self) (secondHRNN self') /\
  forall ws C, layer_ok self ws C -> layer_ok self' ws C.
Proof. apply apply_preserves. Qed.


(** The library's recurrent constructor records the arguments it is
    given. *)
Definition constructor_records : Prop :=
  forall cls inp hid bi bf layers p b s m s',
    rnn_new cls inp hid bi bf layers p b s = (Ok m, s') ->
    mode m = cls /\ input_size m = inp /\ hidden_size m = hid /\
    num_layers m = layers /\ bidirectional m = bi /\ batch_first m = bf.

(** What construction establishes.  If the recurrent constructor
    records its arguments and [rnn] names the memory-cell class exactly when
    it is "LSTM", a layer returned by [__init__] stores the window size for
    both axes, its hidden size, class name and stack sizes, is in training
    mode, and its two modules fit it: the first takes ws * ws * channel_size
    features, the second 2 * hidden_dim. *)
Lemma init_layer_ok (ws d : nat) (rnn : string)
    (stack : nat * nat) (C : nat) (b : bool) (p : Q) (s s' : State)
    (self : ReNetLayer) :
  constructor_records ->
  (nn rnn = Some (RecurrentClass LSTM) <-> rnn = "LSTM") ->
  __init__ ws d rnn stack C b p s = (Ok self, s') ->
  layer_ok self ws C /\ window_size self = (ws, ws) /\ hidden_dim self = d /\
  rnn_type self = rnn /\ stack_size self = stack /\ training self = true.
Proof.
  intros Hctor Hnn Hrun.
  apply init_inv in Hrun as (cls & first0 & second0 & s1 & s2 & Ec & H1 & H2 & Hrun).
  apply Hctor in H1 as (A1 & A2 & A3 & A4 & A5 & A6).
  apply Hctor in H2 as (B1 & B2 & B3 & B4 & B5 & B6).
  apply apply_preserves in Hrun
    as (Hw & Ht & Hd & Hs & Htr & _ & _ & Hok).
  cbn [window_size rnn_type hidden_dim stack_size training] in *.
  split; [|repeat split; assumption].
  apply Hok. unfold layer_ok, module_fits.
  cbn [window_size rnn_type hidden_dim stack_size firstVRNN secondHRNN fst snd].
  rewrite A1, A2, A3, A4, A5, A6, B1, B2, B3, B4, B5, B6.
  repeat split; try reflexivity;
    try (intros E; apply Hnn; congruence);
    try (intros E; apply Hnn in E; congruence).
Qed.

(** X11: what construction establishes.  If the recurrent constructor
    records its arguments and [rnn] names the memory-cell class exactly when
    it is "LSTM", a layer returned by [__init__] stores the window size for
    both axes, its hidden size, class name and stack sizes, is in training
    mode, and its two modules fit it: the first takes ws * ws * channel_size
    features, the second 2 * hidden_dim. *)
Theorem init_establishes_layer (ws d : nat) (rnn : string)
    (stack : nat * nat) (C : nat) (b : bool) (p : Q) (s s' : State)
    (self : ReNetLayer) :
  constructor_records ->
  (nn rnn = Some (RecurrentClass LSTM) <-> rnn = "LSTM") ->
  __init__ ws d rnn stack C b p s = (Ok self, s') ->
  layer_ok self ws C /\ window_size self = (ws, ws) /\ hidden_dim self = d /\
  rnn_type self = rnn /\ stack_size self = stack /\ training self = true.
Proof. apply init_layer_ok. Qed.

(** X12: construction followed by a call.  Under the same two conditions
    on the library, a layer returned by [__init__] for window size [ws],
    hidden size [d] and [C] channels maps a non-empty batch of [C]-channel
    images at least as large as the window to a tensor of shape
    (B, 2 * d, H / ws, W / ws), the quotients rounded down. *)
Theorem constructed_layer_forward (ws d : nat) (rnn : string)
    (stack : nat * nat) (C : nat) (b : bool) (p : Q) (s0 s1 s : State)
    (self : ReNetLayer) (x : Tensor) (B H W : nat) :
  constructor_records ->
  (nn rnn = Some (RecurrentClass LSTM) <-> rnn = "LSTM") ->
  __init__ ws d rnn stack C b p s0 = (Ok self, s1) ->
  tensor_in s x [B; C; H; W] -> 0 < B -> 0 < ws -> ws <= H -> ws <= W ->
  exists out s',
    forward self x s = (Ok out, s') /\
    shape out = [B; 2 * d; H / ws; W / ws].
Proof.
  intros Hctor Hnn Hinit (Hsh & Hst & Hv) HB Hpos HH HW.
  destruct (init_layer_ok ws d rnn stack C b p s0 s1 self Hctor Hnn Hinit)
    as (Hok & _ & Hd & _).
  destruct (forward_spec self x s B C H W ws Hok Hsh Hst Hv HB Hpos HH HW)
    as (out & s' & Hrun & Hout & _).
  exists out, s'. split; [exact Hrun|]. rewrite Hout, Hd. reflexivity.
Qed.

(** One sweep on an input whose feature size is not the module's input
    size: the recurrent call raises. *)
Lemma apply_one_direction_feature_mismatch (self : ReNetLayer) (x : Tensor)
    (m : RNNModule) (stack S B O F : nat) (s : State) :
  shape x = [S; B; O; F] -> length (stride x) = 4 -> valid s x ->
  0 < S -> 0 < B -> batch_first m = true -> input_size m <> F ->
  raises (apply_one_direction self x m stack) s RuntimeError.
Proof.
  intros Hsh Hst Hv HS HB Hbf Hin.
  destruct x as [loc off sh st]. cbn [shape stride] in Hsh, Hst. subst sh.
  destruct st as [|x0 [|x1 [|x2 [|x3 [|? ?]]]]]; try discriminate Hst. clear Hst.
  unfold apply_one_direction.
  apply raises_bind. eapply returns_lift.
  { eapply split_rows; [reflexivity|reflexivity|exact HS]. }
  cbn [storage offset].
  set (parts := map _ (seq 0 S)).
  assert (Hlen : length parts = S)
    by (unfold parts; rewrite length_map, length_seq; reflexivity).
  apply raises_bind.
  eapply returns_mono.
  { apply (cat_uniform_spec parts (mkTensor loc off [1; B; O; F] [x0; x1; x2; x3])
             1 B [1; B; O; F]).
    - intros E. rewrite E in Hlen. cbn in Hlen. lia.
    - unfold parts. apply Forall_forall. intros t Ht.
      apply list_elem_of_In, in_map_iff in Ht as (i & <- & _). reflexivity.
    - cbn. lia.
    - reflexivity.
    - exact HB. }
  rewrite Hlen. cbn [insert list_insert].
  intros _in s1 (-> & _).
  apply raises_bind.
  eapply returns_mono;
    [apply (get_init_hidden_spec self _ stack (S * B)); reflexivity|].
  intros hn s2 _.
  apply raises_bind. eapply returns_lift; [reflexivity|].
  apply raises_now. unfold rnn_call. cbn [shape]. rewrite Hbf.
  destruct (Nat.eqb_spec F (input_size m)) as [E|_]; [congruence|].
  cbn [negb]. eexists. reflexivity.
Qed.

(** X13: a channel count other than the one the layer was built for makes
    the layer raise, at the first recurrent call, whose module expects
    ws * ws * channel_size features; storages allocated before are kept,
    existing ones are untouched. *)
Theorem forward_channel_mismatch (self : ReNetLayer) (x : Tensor) (s : State)
    (B C C' H W ws : nat) :
  layer_ok self ws C -> tensor_in s x [B; C'; H; W] -> C' <> C ->
  0 < B -> 0 < ws -> ws <= H -> ws <= W ->
  exists s', forward self x s = (Raise RuntimeError, s') /\ extends s s'.
Proof.
  intros (Hws & Hfit1 & _) (Hsh & Hst & Hv) HC HB Hpos HH HW.
  pose proof (windows_pos H ws Hpos HH) as HH'.
  pose proof (windows_pos W ws Hpos HW) as HW'.
  assert (Hr : raises (forward self x) s RuntimeError).
  { unfold forward. apply raises_bind.
    eapply returns_mono; [eapply get_valid_patches_spec; eassumption|].
    intros p s1 (Hp & Hpst & Hpv & _).
    destruct p as [pl po psh pst]. cbn [shape stride] in Hp, Hpst. subst psh.
    destruct pst as [|p0 [|p1 [|p2 [|p3 [|? ?]]]]]; try discriminate Hpst.
    apply raises_bind. eapply returns_lift; [reflexivity|].
    apply raises_now.
    eapply (apply_one_direction_feature_mismatch self _ (firstVRNN self) _
              (H / ws) B (W / ws) (ws * ws * C'));
      [reflexivity|reflexivity|exact Hpv|exact HH'|exact HB|apply Hfit1|].
    destruct Hfit1 as (_ & _ & -> & _). nia. }
  destruct Hr as (s' & Hrun). exists s'. split; [exact Hrun|].
  pose proof (allocates_forward self x s) as He. rewrite Hrun in He. exact He.
Qed.

(** X14: patch extraction may return a view of its input.  For a
    contiguous single-channel input and window size 1 the six-axis view is
    already contiguous, [contiguous] returns it as it is, and the result
    shares the input's storage; nothing is allocated. *)
Theorem get_valid_patches_may_alias (self : ReNetLayer) (x : Tensor)
    (s : State) (B H W : nat) :
  window_size self = (1, 1) ->
  shape x = [B; 1; H; W] -> stride x = contiguous_strides [B; 1; H; W] ->
  0 < B -> 0 < H -> 0 < W ->
  exists p,
    get_valid_patches self x s = (Ok p, s) /\
    storage p = storage x /\ shape p = [B; 1; H; W].
Proof.
  intros Hws Hsh Hst HB HH HW.
  destruct x as [loc off sh st]. cbn [shape stride storage] in *. subst sh st.
  assert (E1 : forall n, 0 < n -> (n - 1) / 1 + 1 = n)
    by (intros n Hn; rewrite Nat.div_1_r; lia).
  assert (L1 : forall n, 0 < n -> (n <? 1) = false)
    by (intros n Hn; apply Nat.ltb_ge; lia).
  unfold get_valid_patches. rewrite Hws. cbn [fst snd].
  unfold bind, lift, unfold.
  cbn -[Nat.ltb Nat.eqb Nat.div Nat.sub Nat.mul numel is_contiguous contiguous view permute size].
  rewrite (L1 H HH), (E1 H HH). cbn [Nat.eqb].
  cbn -[Nat.ltb Nat.eqb Nat.div Nat.sub Nat.mul numel is_contiguous contiguous view permute size].
  rewrite (L1 W HW), (E1 W HW). cbn [Nat.eqb].
  set (t6 := mkTensor loc off [B; H; W; 1; 1; 1]
               [numel [1; H; W]; 1 * numel [W]; 1 * numel [];
                numel [H; W]; numel [W]; numel []]).
  match goal with
  | |- context [permute ?t [0; 2; 3; 1; 4; 5]] =>
      replace (permute t [0; 2; 3; 1; 4; 5]) with (Ok t6) by reflexivity
  end.
  assert (Hc : is_contiguous t6 = true).
  { unfold is_contiguous, t6. cbn [shape stride strides_match].
    apply orb_true_iff. right.
    repeat (apply andb_true_iff; split); try reflexivity;
      apply orb_true_iff; right; apply Nat.eqb_eq; cbn; lia. }
  unfold contiguous. rewrite Hc. unfold ret.
  cbn -[Nat.ltb Nat.eqb Nat.div Nat.sub Nat.mul numel is_contiguous view permute].
  unfold view. rewrite Hc.
  change [Z.of_nat B; Z.of_nat H; Z.of_nat W; (-1)%Z]
    with (map Z.of_nat [B; H; W] ++ [(-1)%Z]).
  rewrite infer_size_last.
  assert (Hk : numel [B; H; W] <> 0) by (cbn; nia).
  destruct (Nat.eqb_spec (numel [B; H; W]) 0) as [E|_]; [contradiction|].
  assert (Hn : numel (shape t6) = 1 * numel [B; H; W]) by (cbn; lia).
  rewrite Hn, Nat.Div0.mod_mul, Nat.div_mul by assumption.
  cbn [Nat.eqb result_bind app].
  eexists. split; [reflexivity|]. split; reflexivity.
Qed.

End Torch.

(** * The library's recurrent networks over the reals

    The arithmetic of the tensor library's three recurrent classes, with
    real numbers for its floating-point numbers: parameter names and
    layout, the cell equations, the two directions, stacking, and dropout
    between stacked layers.  The random generator is a tape of dropout
    draws and a tape of uniform draws. *)

Module TorchReal.

Local Open Scope R_scope.

Record Gen : Type := mkGen {
  masks : nat -> bool;
  uniforms : nat -> R
}.

Definition sigmoid (x : R) : R := 1 / (1 + exp (- x)).

Section Network.

(** The nonlinearities of the cells and the square root of the
    initialisers, instantiated below with [tanh], [sigmoid] and [sqrt]. *)
Context (th sg sq : R -> R).

(** Number of gate blocks in the stacked weight matrices of a class. *)
Definition gate_count (md : RnnMode) : nat :=
  match md with
  | RNN_TANH => 1
  | GRU => 3
  | LSTM => 4
  end.

Definition rdot (u v : list R) : R :=
  fold_right Rplus 0 (zip_with Rmult u v).

Definition vadd (u v : list R) : list R := zip_with Rplus u v.

(** Row [i] of a matrix parameter stored row-major. *)
Definition row (p : Param) (i : nat) : list R :=
  let cols := nth 1 (pshape p) 0%nat in
  firstn cols (skipn (i * cols) (pdata p)).

(** Matrix-vector product; an absent parameter counts as zero. *)
Definition mat_vec (p : option (@Param R)) (rows : nat) (x : list R) : list R :=
  map (fun i => match p with
                | Some p => rdot (row p i) x
                | None => 0
                end) (seq 0 rows).

Definition vec (p : option (@Param R)) (n : nat) : list R :=
  map (fun i => match p with
                | Some p => nth i (pdata p) 0
                | None => 0
                end) (seq 0 n).

(** Block [k] of a stacked gate vector. *)
Definition chunk (d k : nat) (v : list R) : list R :=
  firstn d (skipn (k * d) v).

(** Suffix of the parameter names of layer [l] in one direction. *)
Definition suffix (l : nat) (reverse : bool) : string :=
  ("_l" +:+ pretty l +:+ (if reverse then "_reverse" else ""))%string.

(** One time step of a cell: new hidden and cell vectors. *)
Definition cell (m : @RNNModule R) (sfx : string) (x : list R)
    (hc : list R * list R) : list R * list R :=
  let d := hidden_size m in
  let n := (gate_count (mode m) * d)%nat in
  let gi := vadd (mat_vec (params m !! ("weight_ih" +:+ sfx)%string) n x)
                 (vec (params m !! ("bias_ih" +:+ sfx)%string) n) in
  let gh := vadd (mat_vec (params m !! ("weight_hh" +:+ sfx)%string) n (fst hc))
                 (vec (params m !! ("bias_hh" +:+ sfx)%string) n) in
  match mode m with
  | RNN_TANH => (map th (vadd gi gh), snd hc)
  | GRU =>
      let r := map sg (vadd (chunk d 0 gi) (chunk d 0 gh)) in
      let z := map sg (vadd (chunk d 1 gi) (chunk d 1 gh)) in
      let c := map th (vadd (chunk d 2 gi) (zip_with Rmult r (chunk d 2 gh))) in
      (vadd (zip_with (fun z c => (1 - z) * c) z c) (zip_with Rmult z (fst hc)),
       snd hc)
  | LSTM =>
      let i := map sg (vadd (chunk d 0 gi) (chunk d 0 gh)) in
      let f := map sg (vadd (chunk d 1 gi) (chunk d 1 gh)) in
      let g := map th (vadd (chunk d 2 gi) (chunk d 2 gh)) in
      let o := map sg (vadd (chunk d 3 gi) (chunk d 3 gh)) in
      let c := vadd (zip_with Rmult f (snd hc)) (zip_with Rmult i g) in
      (zip_with Rmult o (map th c), c)
  end.

(** A cell run along a sequence: the hidden vector after every step. *)
Fixpoint run_cell (m : @RNNModule R) (sfx : string) (xs : list (list R))
    (hc : list R * list R) : list (list R) :=
  match xs with
  | [] => []
  | x :: xs' =>
      let hc' := cell m sfx x hc in
      fst hc' :: run_cell m sfx xs' hc'
  end.

(** One stacked layer: the forward run, and for a bidirectional module the
    run over the reversed sequence, concatenated position by position. *)
Definition run_layer (m : @RNNModule R) (l : nat)
    (h0 : list (list R)) (c0 : option (list (list R)))
    (xs : list (list R)) : list (list R) :=
  let dirs := num_directions m in
  let state := fun k => (nth k h0 [],
                         match c0 with Some c => nth k c [] | None => [] end) in
  let fwd := run_cell m (suffix l false) xs (state (dirs * l)%nat) in
  if bidirectional m then
    let bwd := rev (run_cell m (suffix l true) (rev xs) (state (dirs * l + 1)%nat)) in
    zip_with app fwd bwd
  else fwd.

(** Dropout on the output of layer [l] for batch element [b]: an element is
    kept and rescaled, or zeroed, as the generator's tape says. *)
Definition drop (m : @RNNModule R) (g : Gen) (b l : nat)
    (ys : list (list R)) : list (list R) :=
  let width := (num_directions m * hidden_size m)%nat in
  imap (fun t y =>
    imap (fun k v =>
      if masks g ((((b * (num_layers m - 1) + l) * length ys + t) * width + k)%nat)
      then v / (1 - Q2R (dropout m)) else 0) y) ys.

(** The stacked layers from layer [l] on, [todo] of them left. *)
Fixpoint run_layers (m : @RNNModule R) (training : bool) (g : Gen) (b : nat)
    (h0 : list (list R)) (c0 : option (list (list R)))
    (todo l : nat) (xs : list (list R)) : list (list R) :=
  match todo with
  | O => xs
  | S todo' =>
      let ys := run_layer m l h0 c0 xs in
      match todo' with
      | O => ys
      | S _ =>
          run_layers m training g b h0 c0 todo' (S l)
            (if dropout_active m training then drop m g b l ys else ys)
      end
  end.

(** The recurrent network on one sequence. *)
Definition rnn_seq (m : @RNNModule R) (training : bool) (g : Gen) (b : nat)
    (h0 : list (list R)) (c0 : option (list (list R)))
    (xs : list (list R)) : list (list R) :=
  run_layers m training g b h0 c0 (num_layers m) 0 xs.

(** The tape after the dropout draws of one call. *)
Definition rnn_gen (m : @RNNModule R) (n len : nat) (g : Gen) : Gen :=
  mkGen (fun i => masks g (i + n * (num_layers m - 1) * len *
                             (num_directions m * hidden_size m))%nat)
        (uniforms g).

(** ** Construction *)

(** The library namespace, as far as it is modelled.  The three recurrent
    classes are bound to the names the layer's docstring gives.  [Linear]
    is a class of the library that is not recurrent: its constructor
    rejects the keyword arguments of the recurrent classes with a type
    error.  [Identity] is a class whose constructor accepts any arguments
    and returns a module without weights.  No other name is modelled. *)
Definition nn (name : string) : option (@NNAttr R Gen) :=
  if String.eqb name "RNN" then Some (RecurrentClass RNN_TANH)
  else if String.eqb name "GRU" then Some (RecurrentClass GRU)
  else if String.eqb name "LSTM" then Some (RecurrentClass LSTM)
  else if String.eqb name "Linear" then Some (OtherAttr (lift (Raise TypeError)))
  else if String.eqb name "Identity" then Some (OtherAttr (ret tt))
  else None.

Abbreviation TM := (@M R Gen).

(** [n] draws from the uniform tape. *)
Definition draw (n : nat) : TM (list R) :=
  fun s => (Ok (map (uniforms (gen s)) (seq 0 n)),
            mkState (store s)
              (mkGen (masks (gen s)) (fun i => uniforms (gen s) (i + n)%nat))).

(** A parameter of shape [sh] drawn uniformly from (-bound, bound). *)
Definition uniform_param (sh : list nat) (bound : R) : TM Param :=
  bind (draw (numel sh)) (fun us =>
  ret (mkParam sh (map (fun u => (2 * u - 1) * bound) us))).

(** Names and shapes of the parameters of layer [l] in one direction. *)
Definition layer_params (md : RnnMode) (inp hid : nat) (bidir bias : bool)
    (l : nat) (reverse : bool) : list (string * list nat) :=
  let n := (gate_count md * hid)%nat in
  let inp_l := if (l =? 0)%nat then inp
               else ((if bidir then 2 else 1) * hid)%nat in
  let sfx := suffix l reverse in
  [("weight_ih" +:+ sfx, [n; inp_l]); ("weight_hh" +:+ sfx, [n; hid])] ++
  (if bias then [("bias_ih" +:+ sfx, [n]); ("bias_hh" +:+ sfx, [n])] else []).

(** The parameter groups of a module, one per layer and direction. *)
Definition param_groups (md : RnnMode) (inp hid : nat) (bidir bias : bool)
    (layers : nat) : list (list (string * list nat)) :=
  flat_map (fun l =>
    layer_params md inp hid bidir bias l false ::
    (if bidir then [layer_params md inp hid bidir bias l true] else []))
    (seq 0 layers).

(** The constructor of a recurrent class: it records its arguments and
    draws every parameter uniformly from (-1/sqrt(hid), 1/sqrt(hid)); it
    registers neither buffers nor sub-modules. *)
Definition rnn_new (md : RnnMode) (inp hid : nat) (bidir bfirst : bool)
    (layers : nat) (p : Q) (bias : bool) : TM RNNModule :=
  let groups := param_groups md inp hid bidir bias layers in
  bind (for_each (concat groups)
          (fun spec (acc : gmap string Param) =>
             bind (uniform_param (snd spec) (/ sq (INR hid))) (fun v =>
             ret (<[fst spec := v]> acc)))
          ∅) (fun ps =>
  ret (mkRNN md inp hid layers bidir bfirst p bias
         (map (map fst) groups) ps ∅ ∅)).

(** [nn.init.xavier_uniform_] on a tensor: redraws a matrix uniformly from
    (-a, a) with a = sqrt(6 / (fan_in + fan_out)); a tensor with fewer than
    two dimensions is rejected. *)
Definition xavier_uniform_tensor (p : @Param R) : TM Param :=
  match pshape p with
  | rows :: cols :: rest =>
      uniform_param (pshape p)
        (sq (6 / INR ((cols + rows) * numel rest)))
  | _ => lift (Raise ValueError)
  end.

(** [nn.init.xavier_uniform_]: given a module instead of a tensor it fails
    on the first tensor method it calls. *)
Definition xavier_uniform_ : @Callable R Gen :=
  mkCallable xavier_uniform_tensor (fun _ => lift (Raise AttributeError)).

(** The layer's entry points with this library. *)
Definition forward := @forward R 0 Gen rnn_seq rnn_gen.
Definition apply_one_direction := @apply_one_direction R 0 Gen rnn_seq rnn_gen.

(** ** Examples: a generator, stores and small layers *)

(** A generator whose dropout tape keeps the first element drawn and drops
    every later one. *)
Definition gen0 : Gen := mkGen (Nat.eqb 0) (fun _ => / 2).

(** A row-major input tensor of shape [sh] in storage 0. *)
Definition input (sh : list nat) : Tensor :=
  mkTensor 0 0 sh (contiguous_strides sh).

(** A state whose storage 0 holds [data]. *)
Definition state_of (data : list R) : State := mkState [data] gen0.

(** A simple-recurrent, bidirectional, batch-first module with one hidden
    unit, no bias and every weight equal to one. *)
Definition unit_rnn (inp layers : nat) (p : Q) : @RNNModule R :=
  let groups := param_groups RNN_TANH inp 1 true false layers in
  mkRNN RNN_TANH inp 1 layers true true p false
    (map (map fst) groups)
    (list_to_map
       (map (fun spec => (fst spec, mkParam (snd spec) (repeat 1 (numel (snd spec)))))
            (concat groups)))
    ∅ ∅.

(** A layer in training mode with window size [ws] for [C] channels, one
    hidden unit and unit weights. *)
Definition unit_layer (ws C : nat) : @ReNetLayer R :=
  mkLayer (ws, ws) "RNN" 1 (unit_rnn (ws * ws * C) 1 0) (unit_rnn 2 1 0)
    (1, 1)%nat true.

(** The same with two stacked layers in the first sweep and dropout 1/2. *)
Definition dropout_layer : @ReNetLayer R :=
  mkLayer (1, 1)%nat "RNN" 1 (unit_rnn 1 2 (1 # 2)) (unit_rnn 2 1 (1 # 2))
    (2, 1)%nat true.

(** ** Evaluating the layer on small inputs *)

(** Value of an outcome at a multi-index, zero for an exception. *)
Definition value_at (r : result Tensor * @State R Gen) (idx : list nat) : R :=
  match r with
  | (Ok t, s) => read 0 s t idx
  | (Raise _, _) => 0
  end.

Definition shape_of (r : result Tensor * @State R Gen) : option (list nat) :=
  match r with
  | (Ok t, _) => Some (shape t)
  | (Raise _, _) => None
  end.

(** A column of two pixels [a] (top) and [b] (bottom): the output at the
    top, in the channel of the reverse direction. *)
Lemma forward_column (a b : R) :
  shape_of (forward (unit_layer 1 1) (input [1; 1; 2; 1]%nat) (state_of [a; b])) =
    Some [1; 2; 2; 1]%nat /\
  value_at (forward (unit_layer 1 1) (input [1; 1; 2; 1]%nat) (state_of [a; b]))
           [0; 1; 0; 0]%nat =
  th (R1 * th (R1 * a + R0 + R0 + (R1 * R0 + R0 + R0)) +
      (R1 * th (R1 * a + R0 + R0 + (R1 * R0 + R0 + R0)) + R0) + R0 +
      (R1 * th (R1 * th (R1 * b + R0 + R0 + (R1 * R0 + R0 + R0)) +
                (R1 * th (R1 * b + R0 + R0 + (R1 * R0 + R0 + R0)) + R0) + R0 +
                (R1 * R0 + R0 + R0)) + R0 + R0)).
Proof. split; vm_compute; reflexivity. Qed.

(** A row of two pixels [a] (left) and [b] (right): the output at the
    left, in the channel of the forward direction. *)
Lemma forward_row (a b : R) :
  shape_of (forward (unit_layer 1 1) (input [1; 1; 1; 2]%nat) (state_of [a; b])) =
    Some [1; 2; 1; 2]%nat /\
  value_at (forward (unit_layer 1 1) (input [1; 1; 1; 2]%nat) (state_of [a; b]))
           [0; 0; 0; 0]%nat =
  th (R1 * th (R1 * a + R0 + R0 + (R1 * R0 + R0 + R0)) +
      (R1 * th (R1 * a + R0 + R0 +
                (R1 * th (R1 * b + R0 + R0 + (R1 * R0 + R0 + R0)) + R0 + R0)) +
       R0) + R0 + (R1 * R0 + R0 + R0)).
Proof. split; vm_compute; reflexivity. Qed.

(** One sweep over an input of shape (1, 1, 2, 1) holding [a] then [b]
    along dim 2: the output at dim-2 position 0, reverse direction. *)
Lemma sweep_along_dim2 (a b : R) :
  shape_of (apply_one_direction (unit_layer 1 1) (input [1; 1; 2; 1]%nat)
              (unit_rnn 1 1 0) 1 (state_of [a; b])) = Some [1; 1; 2; 2]%nat /\
  value_at (apply_one_direction (unit_layer 1 1) (input [1; 1; 2; 1]%nat)
              (unit_rnn 1 1 0) 1 (state_of [a; b])) [0; 0; 0; 1]%nat =
  th (R1 * a + R0 + R0 +
      (R1 * th (R1 * b + R0 + R0 + (R1 * R0 + R0 + R0)) + R0 + R0)).
Proof. split; vm_compute; reflexivity. Qed.

(** One sweep over an input of shape (2, 1, 1, 1) holding [a] then [b]
    along dim 0: the outputs at dim-0 position 0 do not mention [b]. *)
Lemma sweep_across_dim0 (a b : R) :
  shape_of (apply_one_direction (unit_layer 1 1) (input [2; 1; 1; 1]%nat)
              (unit_rnn 1 1 0) 1 (state_of [a; b])) = Some [2; 1; 1; 2]%nat /\
  value_at (apply_one_direction (unit_layer 1 1) (input [2; 1; 1; 1]%nat)
              (unit_rnn 1 1 0) 1 (state_of [a; b])) [0; 0; 0; 0]%nat =
  th (R1 * a + R0 + R0 + (R1 * R0 + R0 + R0)) /\
  value_at (apply_one_direction (unit_layer 1 1) (input [2; 1; 1; 1]%nat)
              (unit_rnn 1 1 0) 1 (state_of [a; b])) [0; 0; 0; 1]%nat =
  th (R1 * a + R0 + R0 + (R1 * R0 + R0 + R0)).
Proof. repeat split; vm_compute; reflexivity. Qed.

(** Two calls in a row of the layer with dropout on a single pixel [a]:
    the first keeps the first hidden element of the lower layer, the second
    drops both. *)
Lemma forward_twice_dropout (a : R) :
  shape_of (forward dropout_layer (input [1; 1; 1; 1]%nat) (state_of [a])) =
    Some [1; 2; 1; 1]%nat /\
  shape_of (forward dropout_layer (input [1; 1; 1; 1]%nat)
              (snd (forward dropout_layer (input [1; 1; 1; 1]%nat)
                      (state_of [a])))) = Some [1; 2; 1; 1]%nat /\
  value_at (forward dropout_layer (input [1; 1; 1; 1]%nat) (state_of [a]))
           [0; 0; 0; 0]%nat =
  th (R1 * th (R1 * (th (R1 * a + R0 + R0 + (R1 * R0 + R0 + R0)) *
                     / (R1 + - (R1 * / (R1 + R1)))) +
               (R1 * R0 + R0) + R0 + (R1 * R0 + R0 + R0)) +
      (R1 * th (R1 * (th (R1 * a + R0 + R0 + (R1 * R0 + R0 + R0)) *
                      / (R1 + - (R1 * / (R1 + R1)))) +
                (R1 * R0 + R0) + R0 + (R1 * R0 + R0 + R0)) + R0) +
      R0 + (R1 * R0 + R0 + R0)) /\
  value_at (forward dropout_layer (input [1; 1; 1; 1]%nat)
              (snd (forward dropout_layer (input [1; 1; 1; 1]%nat)
                      (state_of [a])))) [0; 0; 0; 0]%nat =
  th (R1 * th (R1 * R0 + (R1 * R0 + R0) + R0 + (R1 * R0 + R0 + R0)) +
      (R1 * th (R1 * R0 + (R1 * R0 + R0) + R0 + (R1 * R0 + R0 + R0)) + R0) +
      R0 + (R1 * R0 + R0 + R0)).
Proof. repeat split; vm_compute; reflexivity. Qed.

(** An image without rows, a batch without images: patch extraction and
    the layer raise, although zero is a multiple of the window size. *)
Lemma forward_empty_raises :
  forward (unit_layer 2 1) (input [1; 1; 0; 2]%nat) (state_of []) =
    (Raise RuntimeError, state_of []) /\
  forward (unit_layer 2 1) (input [0; 1; 2; 2]%nat) (state_of []) =
    (Raise RuntimeError, state_of []).
Proof. split; vm_compute; reflexivity. Qed.

(** An image of 33 rows and window size 2: 16 patch rows, no exception. *)
Lemma forward_odd_height :
  shape_of (forward (unit_layer 2 1) (input [1; 1; 33; 2]%nat)
              (state_of (repeat 0 66))) = Some [1; 2; 16; 1]%nat.
Proof. vm_compute. reflexivity. Qed.

(** Construction of a one-layer simple-recurrent layer with biases
    succeeds. *)
Lemma construction_succeeds :
  exists self s',
    __init__ nn rnn_new xavier_uniform_ 1 1 "RNN" (1, 1)%nat 1 true 0 (state_of []) =
      (Ok self, s').
Proof. vm_compute. eexists _, _. reflexivity. Qed.

(** Construction with the name of the library's linear class: the lookup of
    the name succeeds and the constructor call raises a type error. *)
Lemma construction_rejects_linear :
  __init__ nn rnn_new xavier_uniform_ 2 50 "Linear" (1, 1)%nat 3 true 0
    (state_of []) = (Raise TypeError, state_of []).
Proof. vm_compute. reflexivity. Qed.

(** Construction with the name of the library's identity class: both
    constructor calls return, and the weight initialisation finds no
    [_all_weights]. *)
Lemma construction_rejects_identity :
  __init__ nn rnn_new xavier_uniform_ 2 50 "Identity" (1, 1)%nat 3 true 0
    (state_of []) = (Raise AttributeError, state_of []).
Proof. vm_compute. reflexivity. Qed.




(** A module that lists a weight it holds as a buffer, not as a
    parameter. *)
Definition buffered_rnn : @RNNModule R :=
  mkRNN RNN_TANH 1 1 1 true true 0 false [["weight_ih_l0"]] ∅
    {["weight_ih_l0" := mkParam [1; 1]%nat [1]]} ∅.

Definition buffered_layer : @ReNetLayer R :=
  mkLayer (1, 1)%nat "RNN" 1 buffered_rnn (unit_rnn 2 1 0) (1, 1)%nat true.

(** [__getattr__] resolves the buffer, so the initialiser is called on it
    and [apply] returns; the buffer holds the redrawn value afterwards. *)
Lemma apply_on_buffer_returns :
  exists self s',
    apply buffered_layer xavier_uniform_ (state_of []) = (Ok self, s') /\
    buffers (firstVRNN self) !! "weight_ih_l0" =
      Some (mkParam [1; 1]%nat [(2 * / 2 - 1) * sq (6 / INR ((1 + 1) * 1))]).
Proof. vm_compute. eexists _, _. split; reflexivity. Qed.

(** Re-initialising the unit layer succeeds. *)
Lemma apply_succeeds :
  exists self s',
    apply (unit_layer 1 1) xavier_uniform_ (state_of []) = (Ok self, s').
Proof. vm_compute. eexists _, _. reflexivity. Qed.

(** The constructor of the recurrent classes records its arguments. *)
Lemma rnn_new_records : constructor_records rnn_new.
Proof.
  intros cls inp hid bi bf layers p b s m s' Hrun. unfold rnn_new in Hrun.
  unfold bind at 1 in Hrun.
  destruct (for_each _ _ _ s) as [[ps|e] s1]; [|discriminate].
  unfold ret in Hrun. injection Hrun as <- _. repeat split.
Qed.

End Network.


(** ** The network with its actual nonlinearities *)

Lemma tanh_0 : tanh 0 = 0.
Proof. unfold tanh. rewrite sinh_0. unfold Rdiv. apply Rmult_0_l. Qed.

Lemma tanh_pos (x : R) : 0 < x -> 0 < tanh x.
Proof.
  intros Hx. unfold tanh, sinh, cosh.
  assert (H1 : exp (- x) < exp x) by (apply exp_increasing; lra).
  pose proof (exp_pos x) as H2. pose proof (exp_pos (- x)) as H3.
  apply Rdiv_lt_0_compat; lra.
Qed.

Lemma outcome_of_shape (r : result Tensor * @State R Gen) (sh : list nat) :
  shape_of r = Some sh ->
  exists y s, r = (Ok y, s) /\ shape y = sh /\
    forall idx, value_at r idx = read 0 s y idx.
Proof.
  destruct r as [[y|e] s]; cbn; intros [= <-].
  exists y, s. repeat split.
Qed.

(** Normal form of the arithmetic left by evaluation. *)
Ltac real_norm :=
  change R1 with 1; change R0 with 0;
  repeat first [ rewrite Rmult_1_l | rewrite Rmult_0_r | rewrite Rmult_0_l
               | rewrite Rplus_0_r | rewrite Rplus_0_l | rewrite tanh_0 ].

(** The library's recurrent network does not consult the generator when
    dropout is inactive. *)
Lemma rnn_seq_without_dropout (th sg : R -> R) (m : @RNNModule R) (tr : bool) :
  dropout_active m tr = false ->
  forall g g' b h c xs,
    rnn_seq th sg m tr g b h c xs = rnn_seq th sg m tr g' b h c xs.
Proof.
  intros Hd g g' b h c xs. unfold rnn_seq.
  generalize 0%nat as l. revert xs.
  induction (num_layers m) as [|todo IH]; intros xs l; [reflexivity|].
  cbn [run_layers]. destruct todo as [|todo]; [reflexivity|].
  rewrite Hd. apply IH.
Qed.

(** C4: information flows from one end of a swept axis to the other.  With
    unit weights, changing the bottom pixel of a column of two changes the
    output at the top of the column, and changing the right pixel of a row
    of two changes the output at its left end; the other pixel is the same
    in both inputs. *)
Theorem information_flows_along_both_axes :
  (exists y1 s1 y2 s2,
     forward tanh sigmoid (unit_layer 1 1) (input [1; 1; 2; 1]%nat)
       (state_of [0; 0]) = (Ok y1, s1) /\
     forward tanh sigmoid (unit_layer 1 1) (input [1; 1; 2; 1]%nat)
       (state_of [0; 1]) = (Ok y2, s2) /\
     read 0 (state_of [0; 0]) (input [1; 1; 2; 1]%nat) [0; 0; 0; 0]%nat =
     read 0 (state_of [0; 1]) (input [1; 1; 2; 1]%nat) [0; 0; 0; 0]%nat /\
     read 0 s1 y1 [0; 1; 0; 0]%nat <> read 0 s2 y2 [0; 1; 0; 0]%nat) /\
  (exists y1 s1 y2 s2,
     forward tanh sigmoid (unit_layer 1 1) (input [1; 1; 1; 2]%nat)
       (state_of [0; 0]) = (Ok y1, s1) /\
     forward tanh sigmoid (unit_layer 1 1) (input [1; 1; 1; 2]%nat)
       (state_of [0; 1]) = (Ok y2, s2) /\
     read 0 (state_of [0; 0]) (input [1; 1; 1; 2]%nat) [0; 0; 0; 0]%nat =
     read 0 (state_of [0; 1]) (input [1; 1; 1; 2]%nat) [0; 0; 0; 0]%nat /\
     read 0 s1 y1 [0; 0; 0; 0]%nat <> read 0 s2 y2 [0; 0; 0; 0]%nat).
Proof.
  split.
  - destruct (forward_column tanh sigmoid 0 0) as [Hs1 Hv1].
    destruct (forward_column tanh sigmoid 0 1) as [Hs2 Hv2].
    apply outcome_of_shape in Hs1 as (y1 & s1 & E1 & _ & Hr1).
    apply outcome_of_shape in Hs2 as (y2 & s2 & E2 & _ & Hr2).
    exists y1, s1, y2, s2. split; [exact E1|]. split; [exact E2|].
    split; [reflexivity|].
    rewrite <- Hr1, <- Hr2, Hv1, Hv2. real_norm.
    pose proof (tanh_pos 1 ltac:(lra)) as P1.
    pose proof (tanh_pos (tanh 1 + tanh 1) ltac:(lra)) as P2.
    pose proof (tanh_pos (tanh (tanh 1 + tanh 1)) P2) as P3.
    lra.
  - destruct (forward_row tanh sigmoid 0 0) as [Hs1 Hv1].
    destruct (forward_row tanh sigmoid 0 1) as [Hs2 Hv2].
    apply outcome_of_shape in Hs1 as (y1 & s1 & E1 & _ & Hr1).
    apply outcome_of_shape in Hs2 as (y2 & s2 & E2 & _ & Hr2).
    exists y1, s1, y2, s2. split; [exact E1|]. split; [exact E2|].
    split; [reflexivity|].
    rewrite <- Hr1, <- Hr2, Hv1, Hv2. real_norm.
    pose proof (tanh_pos 1 ltac:(lra)) as P1.
    pose proof (tanh_pos (tanh 1) P1) as P2.
    pose proof (tanh_pos (tanh (tanh 1)) P2) as P3.
    lra.
Qed.

(** C3, the code at a concrete input: one sweep with unit weights.  Two
    inputs of shape (1, 1, 2, 1) that differ only at dim-2 position 1 give
    outputs that differ at dim-2 position 0; two inputs of shape
    (2, 1, 1, 1) that differ only at dim-0 position 1 give the same outputs
    at dim-0 position 0.  The recurrence runs along dim 2, not dim 0. *)
Theorem sweep_runs_along_dim2 :
  (exists y1 s1 y2 s2,
     apply_one_direction tanh sigmoid (unit_layer 1 1) (input [1; 1; 2; 1]%nat)
       (unit_rnn 1 1 0) 1 (state_of [0; 0]) = (Ok y1, s1) /\
     apply_one_direction tanh sigmoid (unit_layer 1 1) (input [1; 1; 2; 1]%nat)
       (unit_rnn 1 1 0) 1 (state_of [0; 1]) = (Ok y2, s2) /\
     read 0 (state_of [0; 0]) (input [1; 1; 2; 1]%nat) [0; 0; 0; 0]%nat =
     read 0 (state_of [0; 1]) (input [1; 1; 2; 1]%nat) [0; 0; 0; 0]%nat /\
     read 0 s1 y1 [0; 0; 0; 1]%nat <> read 0 s2 y2 [0; 0; 0; 1]%nat) /\
  (exists y1 s1 y2 s2,
     apply_one_direction tanh sigmoid (unit_layer 1 1) (input [2; 1; 1; 1]%nat)
       (unit_rnn 1 1 0) 1 (state_of [0; 0]) = (Ok y1, s1) /\
     apply_one_direction tanh sigmoid (unit_layer 1 1) (input [2; 1; 1; 1]%nat)
       (unit_rnn 1 1 0) 1 (state_of [0; 1]) = (Ok y2, s2) /\
     read 0 (state_of [0; 0]) (input [2; 1; 1; 1]%nat) [1; 0; 0; 0]%nat <>
     read 0 (state_of [0; 1]) (input [2; 1; 1; 1]%nat) [1; 0; 0; 0]%nat /\
     read 0 s1 y1 [0; 0; 0; 0]%nat = read 0 s2 y2 [0; 0; 0; 0]%nat /\
     read 0 s1 y1 [0; 0; 0; 1]%nat = read 0 s2 y2 [0; 0; 0; 1]%nat).
Proof.
  split.
  - destruct (sweep_along_dim2 tanh sigmoid 0 0) as [Hs1 Hv1].
    destruct (sweep_along_dim2 tanh sigmoid 0 1) as [Hs2 Hv2].
    apply outcome_of_shape in Hs1 as (y1 & s1 & E1 & _ & Hr1).
    apply outcome_of_shape in Hs2 as (y2 & s2 & E2 & _ & Hr2).
    exists y1, s1, y2, s2. split; [exact E1|]. split; [exact E2|].
    split; [reflexivity|].
    rewrite <- Hr1, <- Hr2, Hv1, Hv2. real_norm.
    pose proof (tanh_pos 1 ltac:(lra)) as P1.
    pose proof (tanh_pos (tanh 1) P1) as P2.
    lra.
  - destruct (sweep_across_dim0 tanh sigmoid 0 0) as (Hs1 & Hv1 & Hw1).
    destruct (sweep_across_dim0 tanh sigmoid 0 1) as (Hs2 & Hv2 & Hw2).
    apply outcome_of_shape in Hs1 as (y1 & s1 & E1 & _ & Hr1).
    apply outcome_of_shape in Hs2 as (y2 & s2 & E2 & _ & Hr2).
    exists y1, s1, y2, s2. split; [exact E1|]. split; [exact E2|].
    split.
    + unfold read, address, state_of, input. cbn. lra.
    + rewrite <- !Hr1, <- !Hr2, Hv1, Hv2, Hw1, Hw2. split; reflexivity.
Qed.

(** C8, counterexample: with dropout 1/2 and two stacked layers in the
    first sweep, in training mode, two calls in a row on the same input and
    the same weights return different values. *)
Lemma forward_with_dropout_differs :
  exists y1 s1 y2 s2,
    forward tanh sigmoid dropout_layer (input [1; 1; 1; 1]%nat) (state_of [1]) =
      (Ok y1, s1) /\
    forward tanh sigmoid dropout_layer (input [1; 1; 1; 1]%nat) s1 = (Ok y2, s2) /\
    read 0 s1 y1 [0; 0; 0; 0]%nat <> read 0 s2 y2 [0; 0; 0; 0]%nat.
Proof.
  destruct (forward_twice_dropout tanh sigmoid 1) as (Hs1 & Hs2 & Hv1 & Hv2).
  apply outcome_of_shape in Hs1 as (y1 & s1 & E1 & _ & Hr1).
  rewrite E1 in Hs2, Hv2. cbn [snd] in Hs2, Hv2.
  apply outcome_of_shape in Hs2 as (y2 & s2 & E2 & _ & Hr2).
  exists y1, s1, y2, s2. split; [exact E1|]. split; [exact E2|].
  rewrite <- Hr1, <- Hr2, Hv1, Hv2. real_norm.
  pose proof (tanh_pos 1 ltac:(lra)) as P1.
  assert (P2 : 0 < tanh 1 * / (1 + - / (1 + 1))).
  { apply Rmult_lt_0_compat; [exact P1|]. apply Rinv_0_lt_compat.
    assert (/ (1 + 1) = / 2) by (f_equal; lra). lra. }
  pose proof (tanh_pos _ P2) as P3.
  pose proof (tanh_pos (tanh (tanh 1 * / (1 + - / (1 + 1))) +
                        tanh (tanh 1 * / (1 + - / (1 + 1)))) ltac:(lra)) as P4.
  lra.
Qed.

(** C1, counterexample: an image without rows (0 is a multiple of 2) and a
    batch without images make the layer raise. *)
Lemma forward_raises_on_empty :
  (0 mod 2 = 0 /\ 2 mod 2 = 0)%nat /\
  forward tanh sigmoid (unit_layer 2 1) (input [1; 1; 0; 2]%nat) (state_of []) =
    (Raise RuntimeError, state_of []) /\
  forward tanh sigmoid (unit_layer 2 1) (input [0; 1; 2; 2]%nat) (state_of []) =
    (Raise RuntimeError, state_of []).
Proof.
  split; [split; reflexivity|]. apply forward_empty_raises.
Qed.

(** C5, counterexample: the same inputs make patch extraction raise. *)
Lemma get_valid_patches_raises_on_empty :
  (0 mod 2 = 0 /\ 2 mod 2 = 0)%nat /\
  @get_valid_patches R 0 Gen (unit_layer 2 1) (input [1; 1; 0; 2]%nat)
    (state_of []) = (Raise RuntimeError, state_of []) /\
  @get_valid_patches R 0 Gen (unit_layer 2 1) (input [0; 1; 2; 2]%nat)
    (state_of []) = (Raise RuntimeError, state_of []).
Proof. repeat split; vm_compute; reflexivity. Qed.

(** C2, counterexample: height 33 with window size 2 raises nothing; patch
    extraction returns 16 patch rows and the layer returns its output. *)
Lemma odd_height_does_not_raise :
  (33 mod 2 <> 0)%nat /\
  (exists p s',
     @get_valid_patches R 0 Gen (unit_layer 2 1) (input [1; 1; 33; 2]%nat)
       (state_of (repeat 0 66)) = (Ok p, s') /\
     shape p = [1; 4; 16; 1]%nat) /\
  (exists y s',
     forward tanh sigmoid (unit_layer 2 1) (input [1; 1; 33; 2]%nat)
       (state_of (repeat 0 66)) = (Ok y, s') /\
     shape y = [1; 2; 16; 1]%nat).
Proof.
  split; [cbn; lia|]. split.
  - vm_compute. eexists _, _. split; reflexivity.
  - pose proof (forward_odd_height tanh sigmoid) as Hs.
    apply outcome_of_shape in Hs as (y & s' & E & Hsh & _).
    exists y, s'. split; assumption.
Qed.

(** C9, counterexample: [Linear] is an attribute of the library that is no
    recurrent class.  The lookup of the name succeeds, and construction
    raises the type error of the constructor call, which is no lookup or
    attribute error. *)
Lemma init_linear_raises_type_error :
  nn "Linear" = Some (OtherAttr (lift (Raise TypeError))) /\
  __init__ nn (rnn_new sqrt) (xavier_uniform_ sqrt) 2 50 "Linear" (1, 1)%nat 3
    true 0 (state_of []) = (Raise TypeError, state_of []) /\
  TypeError <> AttributeError.
Proof.
  split; [reflexivity|]. split; [apply construction_rejects_linear|].
  discriminate.
Qed.

(** ** The theorems at concrete inputs *)

Lemma unit_layer_ok (ws C : nat) : layer_ok (unit_layer ws C) ws C.
Proof.
  unfold layer_ok, module_fits.
  repeat split; try reflexivity; intros E; discriminate E.
Defined.

Lemma input_in (data : list R) (sh : list nat) :
  tensor_in (state_of data) (input sh) sh.
Proof.
  split; [reflexivity|]. split.
  - unfold input. cbn [stride].
    clear -sh. induction sh as [|n sh IH]; [reflexivity|cbn; f_equal; exact IH].
  - unfold valid. cbn. lia.
Defined.

Lemma forward_shape_witness :
  exists out s',
    forward tanh sigmoid (unit_layer 2 1) (input [1; 1; 2; 2]%nat)
      (state_of [0; 0; 0; 0]) = (Ok out, s') /\
    shape out = [1; 2 * 1; 2 / 2; 2 / 2]%nat.
Proof.
  apply (forward_shape 0 (rnn_seq tanh sigmoid) rnn_gen (unit_layer 2 1)
           (input [1; 1; 2; 2]%nat) (state_of [0; 0; 0; 0]) 1 1 2 2 2).
  - apply unit_layer_ok.
  - apply input_in.
  - lia.
  - lia.
  - lia.
  - lia.
  - reflexivity.
  - reflexivity.
Defined.

Lemma get_valid_patches_truncates_witness :
  exists p s',
    @get_valid_patches R 0 Gen (unit_layer 2 1) (input [1; 1; 33; 2]%nat)
      (state_of (repeat 0 66)) = (Ok p, s') /\
    shape p = [1; 2 * 2 * 1; 33 / 2; 2 / 2]%nat.
Proof.
  destruct (get_valid_patches_truncates 0 (unit_layer 2 1)
              (input [1; 1; 33; 2]%nat) (state_of (repeat 0 66)) 1 1 33 2 2)
    as [Hfits _].
  - reflexivity.
  - apply input_in.
  - lia.
  - lia.
  - destruct Hfits as (p & s' & Hrun & Hsh & _); [lia|lia|].
    exists p, s'. split; assumption.
Defined.

Lemma get_valid_patches_correct_witness :
  exists p s',
    @get_valid_patches R 0 Gen (unit_layer 2 1) (input [1; 1; 2; 2]%nat)
      (state_of [0; 1; 0; 1]) = (Ok p, s') /\
    shape p = [1; 2 * 2 * 1; 2 / 2; 2 / 2]%nat.
Proof.
  destruct (get_valid_patches_correct 0 (unit_layer 2 1)
              (input [1; 1; 2; 2]%nat) (state_of [0; 1; 0; 1]) 1 1 2 2 2)
    as (p & s' & Hrun & Hsh & _).
  - reflexivity.
  - apply input_in.
  - lia.
  - lia.
  - lia.
  - lia.
  - reflexivity.
  - reflexivity.
  - exists p, s'. split; assumption.
Defined.

Lemma get_init_hidden_zero_state_witness :
  exists hx s',
    @get_init_hidden R 0 Gen (unit_layer 1 1) (input [1; 3; 2; 2]%nat) 2
      (state_of []) = (Ok hx, s') /\
    Forall (fun t => is_zeros 0 s' t [2 * 2; 3; 1]%nat /\
                     zero_filled 0 s' t [2 * 2; 3; 1]%nat)
           (hidden_tensors hx).
Proof.
  destruct (get_init_hidden_zero_state 0 (unit_layer 1 1)
              (input [1; 3; 2; 2]%nat) 2 3 (state_of []))
    as [(hx & s' & Hrun & Hz & _) _].
  - reflexivity.
  - exists hx, s'. split; assumption.
Defined.

Lemma forward_leaves_input_witness :
  nth (storage (input [1; 1; 2; 1]%nat))
      (store (snd (forward tanh sigmoid (unit_layer 1 1)
                     (input [1; 1; 2; 1]%nat) (state_of [0; 1])))) [] =
  nth (storage (input [1; 1; 2; 1]%nat)) (store (state_of [0; 1])) [] /\
  read 0 (snd (forward tanh sigmoid (unit_layer 1 1) (input [1; 1; 2; 1]%nat)
                 (state_of [0; 1]))) (input [1; 1; 2; 1]%nat) [0; 0; 1; 0]%nat =
  read 0 (state_of [0; 1]) (input [1; 1; 2; 1]%nat) [0; 0; 1; 0]%nat.
Proof.
  destruct (forward_leaves_input 0 (rnn_seq tanh sigmoid) rnn_gen
              (unit_layer 1 1) (input [1; 1; 2; 1]%nat) (state_of [0; 1]))
    as (_ & Hstore & Hread).
  - unfold valid. cbn. lia.
  - split; [exact Hstore|apply Hread].
Defined.

Lemma init_unknown_rnn_raises_witness :
  __init__ nn (rnn_new sqrt) (xavier_uniform_ sqrt) 2 50 "lstm" (1, 1)%nat 3 true 0
    (state_of []) = (Raise AttributeError, state_of []) /\
  __init__ nn (rnn_new sqrt) (xavier_uniform_ sqrt) 2 50 "Linear" (1, 1)%nat 3
    true 0 (state_of []) = (Raise TypeError, state_of []).
Proof.
  split.
  - destruct (init_unknown_rnn_raises nn (rnn_new sqrt) (xavier_uniform_ sqrt)
                2 50 "lstm" (1, 1)%nat 3 true 0 (state_of []))
      as (_ & Hnone & _).
    + intros cls. discriminate.
    + apply Hnone. reflexivity.
  - destruct (init_unknown_rnn_raises nn (rnn_new sqrt) (xavier_uniform_ sqrt)
                2 50 "Linear" (1, 1)%nat 3 true 0 (state_of []))
      as (_ & _ & Hother).
    + intros cls. discriminate.
    + destruct (Hother (lift (Raise TypeError)) eq_refl) as (Hraise & _).
      apply Hraise. reflexivity.
Defined.


Lemma forward_deterministic_witness :
  exists y1 s1 y2 s2,
    forward tanh sigmoid (unit_layer 1 1) (input [1; 1; 2; 1]%nat)
      (state_of [0; 1]) = (Ok y1, s1) /\
    forward tanh sigmoid (unit_layer 1 1) (input [1; 1; 2; 1]%nat) s1 =
      (Ok y2, s2) /\
    shape y1 = shape y2.
Proof.
  destruct (forward_deterministic 0 (rnn_seq tanh sigmoid) rnn_gen
              (unit_layer 1 1) (input [1; 1; 2; 1]%nat) (state_of [0; 1])
              1 1 2 1 1)
    as (y1 & s1 & y2 & s2 & H1 & H2 & Hsh & _).
  - intros m tr Hd. unfold gen_irrelevant.
    apply rnn_seq_without_dropout. exact Hd.
  - reflexivity.
  - reflexivity.
  - apply unit_layer_ok.
  - apply input_in.
  - lia.
  - lia.
  - lia.
  - lia.
  - exists y1, s1, y2, s2. repeat split; assumption.
Defined.

(** ** Further theorems at concrete inputs *)

Lemma unit_rnn_fits : module_fits (unit_layer 1 1) (unit_rnn 1 1 0) 1 1.
Proof.
  unfold module_fits. repeat split; try reflexivity; intros E; discriminate E.
Defined.

Lemma forward_window_too_large_witness :
  forward tanh sigmoid (unit_layer 2 1) (input [1; 1; 1; 2]%nat)
    (state_of [0; 0]) = (Raise RuntimeError, state_of [0; 0]).
Proof.
  apply (forward_window_too_large 0 (rnn_seq tanh sigmoid) rnn_gen
           (unit_layer 2 1) (input [1; 1; 1; 2]%nat) (state_of [0; 0]) 1 1 1 2 2).
  - reflexivity.
  - reflexivity.
  - reflexivity.
  - left. lia.
Defined.

Lemma get_valid_patches_rank_witness :
  @get_valid_patches R 0 Gen (unit_layer 2 1) (input [2; 2; 2]%nat)
    (state_of (repeat 0 8)) = (Raise RuntimeError, state_of (repeat 0 8)) /\
  @get_valid_patches R 0 Gen (unit_layer 2 1) (input [2; 2]%nat)
    (state_of (repeat 0 4)) = (Raise IndexError, state_of (repeat 0 4)).
Proof.
  split.
  - apply (get_valid_patches_rank 0 (unit_layer 2 1) (input [2; 2; 2]%nat));
      [reflexivity|cbn; lia|cbn; lia].
  - apply (get_valid_patches_rank 0 (unit_layer 2 1) (input [2; 2]%nat));
      [reflexivity|cbn; lia|cbn; lia].
Defined.

Lemma get_valid_patches_rearranges_witness :
  exists p s',
    @get_valid_patches R 0 Gen (unit_layer 2 1) (input [1; 1; 2; 2]%nat)
      (state_of [0; 1; 0; 1]) = (Ok p, s') /\
    numel (shape p) = numel (shape (input [1; 1; 2; 2]%nat)) /\
    read 0 (state_of [0; 1; 0; 1]) (input [1; 1; 2; 2]%nat) [0; 0; 1; 1]%nat =
    read 0 s' p [0; 3; 0; 0]%nat.
Proof.
  destruct (get_valid_patches_rearranges 0 (unit_layer 2 1)
              (input [1; 1; 2; 2]%nat) (state_of [0; 1; 0; 1]) 1 1 2 2 2)
    as (p & s' & Hrun & Hn & Hr).
  - reflexivity.
  - apply input_in.
  - lia.
  - lia.
  - lia.
  - lia.
  - reflexivity.
  - reflexivity.
  - exists p, s'. split; [exact Hrun|]. split; [exact Hn|].
    apply (Hr 0 0 1 1)%nat; lia.
Defined.

Lemma apply_one_direction_contract_witness :
  exists out s',
    apply_one_direction tanh sigmoid (unit_layer 1 1) (input [1; 1; 2; 1]%nat)
      (unit_rnn 1 1 0) 1 (state_of [0; 1]) = (Ok out, s') /\
    shape out = [1; 1; 2; 2 * 1]%nat.
Proof.
  destruct (apply_one_direction_contract 0 (rnn_seq tanh sigmoid) rnn_gen
              (unit_layer 1 1) (input [1; 1; 2; 1]%nat) (unit_rnn 1 1 0)
              1 1 1 2 1 (state_of [0; 1]))
    as (out & s' & Hrun & Hsh & _).
  - apply input_in.
  - lia.
  - lia.
  - lia.
  - apply unit_rnn_fits.
  - exists out, s'. split; assumption.
Defined.

Lemma forward_computes_witness :
  exists out s',
    forward tanh sigmoid (unit_layer 1 1) (input [1; 1; 2; 1]%nat)
      (state_of [0; 1]) = (Ok out, s') /\
    read 0 s' out [0; 1; 0; 0]%nat =
    forward_value 0 (rnn_seq tanh sigmoid) rnn_gen (unit_layer 1 1)
      (read 0 (state_of [0; 1]) (input [1; 1; 2; 1]%nat))
      (gen (state_of [0; 1])) 1 1 (2 / 1) (1 / 1) 0 1 0 0.
Proof.
  destruct (forward_computes 0 (rnn_seq tanh sigmoid) rnn_gen
              (unit_layer 1 1) (input [1; 1; 2; 1]%nat) (state_of [0; 1])
              1 1 2 1 1)
    as (out & s' & Hrun & Hr).
  - apply unit_layer_ok.
  - apply input_in.
  - lia.
  - lia.
  - lia.
  - lia.
  - exists out, s'. split; [exact Hrun|]. apply Hr; cbn; lia.
Defined.

Lemma forward_local_witness :
  exists out s1 out' s1',
    forward tanh sigmoid (unit_layer 1 1) (input [2; 1; 1; 1]%nat)
      (state_of [0; 1; 0; 0]) = (Ok out, s1) /\
    forward tanh sigmoid (unit_layer 1 1) (mkTensor 0%nat 2%nat [2; 1; 1; 1]%nat [1; 1; 1; 1]%nat)
      (state_of [0; 1; 0; 0]) = (Ok out', s1') /\
    read 0 s1 out [0; 0; 0; 0]%nat = read 0 s1' out' [0; 0; 0; 0]%nat.
Proof.
  destruct (forward_local 0 (rnn_seq tanh sigmoid) rnn_gen
              (unit_layer 1 1) (input [2; 1; 1; 1]%nat)
              (mkTensor 0%nat 2%nat [2; 1; 1; 1]%nat [1; 1; 1; 1]%nat)
              (state_of [0; 1; 0; 0]) 2 1 1 1 1 0)
    as (out & s1 & out' & s1' & H1 & H2 & Hr).
  - apply unit_layer_ok.
  - apply input_in.
  - split; [reflexivity|]. split; [reflexivity|]. unfold valid. cbn. lia.
  - lia.
  - lia.
  - lia.
  - lia.
  - lia.
  - intros c h w Hc Hh Hw. cbn in Hh, Hw.
    assert (c = 0)%nat by lia. assert (h = 0)%nat by lia. assert (w = 0)%nat by lia.
    subst. reflexivity.
  - exists out, s1, out', s1'. split; [exact H1|]. split; [exact H2|].
    apply Hr; cbn; lia.
Defined.

Lemma forward_output_fresh_witness :
  exists out s',
    forward tanh sigmoid (unit_layer 1 1) (input [1; 1; 2; 1]%nat)
      (state_of [0; 1]) = (Ok out, s') /\
    storage out <> storage (input [1; 1; 2; 1]%nat).
Proof.
  destruct (forward_spec 0 (rnn_seq tanh sigmoid) rnn_gen (unit_layer 1 1)
              (input [1; 1; 2; 1]%nat) (state_of [0; 1]) 1 1 2 1 1)
    as (out & s' & Hrun & _); try lia; try reflexivity.
  - apply unit_layer_ok.
  - unfold valid. cbn. lia.
  - exists out, s'. split; [unfold forward; exact Hrun|].
    apply (forward_output_fresh 0 (rnn_seq tanh sigmoid) rnn_gen (unit_layer 1 1)
             (input [1; 1; 2; 1]%nat) out (state_of [0; 1]) s').
    + unfold valid. cbn. lia.
    + exact Hrun.
Defined.

Lemma get_init_hidden_storages_witness :
  @get_init_hidden R 0 Gen (unit_layer 1 1) (input [3]%nat) 2 (state_of []) =
    (Raise IndexError, state_of []).
Proof.
  apply (get_init_hidden_storages 0 (unit_layer 1 1) (input [3]%nat) 2
           (state_of [])).
  cbn. lia.
Defined.

Lemma apply_keeps_configuration_witness :
  exists self s',
    apply (unit_layer 1 1) (xavier_uniform_ sqrt) (state_of []) = (Ok self, s') /\
    layer_ok self 1 1.
Proof.
  destruct (apply_succeeds sqrt) as (self & s' & Hrun).
  exists self, s'. split; [exact Hrun|].
  apply (apply_keeps_configuration (unit_layer 1 1) self (xavier_uniform_ sqrt)
           (state_of []) s' Hrun).
  apply unit_layer_ok.
Defined.


Lemma nn_names_memory_cell (name : string) :
  nn name = Some (RecurrentClass LSTM) <-> name = "LSTM".
Proof.
  unfold nn.
  destruct (String.eqb_spec name "RNN") as [->|_];
    [split; intros E; discriminate E|].
  destruct (String.eqb_spec name "GRU") as [->|_];
    [split; intros E; discriminate E|].
  destruct (String.eqb_spec name "LSTM") as [->|Hne];
    [split; reflexivity|].
  destruct (String.eqb_spec name "Linear") as [->|_];
    [split; intros E; discriminate E|].
  destruct (String.eqb_spec name "Identity") as [->|_];
    [split; intros E; discriminate E|].
  split; intros E; [discriminate E|contradiction].
Qed.

Lemma init_establishes_layer_witness :
  exists self s',
    __init__ nn (rnn_new sqrt) (xavier_uniform_ sqrt) 1 1 "RNN" (1, 1)%nat 1 true 0
      (state_of []) = (Ok self, s') /\
    layer_ok self 1 1.
Proof.
  destruct (construction_succeeds sqrt) as (self & s' & Hrun).
  exists self, s'. split; [exact Hrun|].
  apply (init_establishes_layer nn (rnn_new sqrt) (xavier_uniform_ sqrt)
           1 1 "RNN" (1, 1)%nat 1 true 0 (state_of []) s' self).
  - apply rnn_new_records.
  - apply nn_names_memory_cell.
  - exact Hrun.
Defined.

Lemma constructed_layer_forward_witness :
  exists self s1 out s',
    __init__ nn (rnn_new sqrt) (xavier_uniform_ sqrt) 1 1 "RNN" (1, 1)%nat 1 true 0
      (state_of []) = (Ok self, s1) /\
    forward tanh sigmoid self (input [1; 1; 2; 3]%nat) (state_of (repeat 0 6)) =
      (Ok out, s') /\
    shape out = [1; 2 * 1; 2 / 1; 3 / 1]%nat.
Proof.
  destruct (construction_succeeds sqrt) as (self & s1 & Hinit).
  destruct (constructed_layer_forward 0 (rnn_seq tanh sigmoid) rnn_gen nn
              (rnn_new sqrt) (xavier_uniform_ sqrt)
              1 1 "RNN" (1, 1)%nat 1 true 0 (state_of []) s1
              (state_of (repeat 0 6)) self (input [1; 1; 2; 3]%nat) 1 2 3)
    as (out & s' & Hrun & Hsh).
  - apply rnn_new_records.
  - apply nn_names_memory_cell.
  - exact Hinit.
  - apply input_in.
  - lia.
  - lia.
  - lia.
  - lia.
  - exists self, s1, out, s'. split; [exact Hinit|].
    split; [unfold forward; exact Hrun|exact Hsh].
Defined.

Lemma forward_channel_mismatch_witness :
  exists s',
    forward tanh sigmoid (unit_layer 1 1) (input [1; 2; 1; 1]%nat)
      (state_of [0; 1]) = (Raise RuntimeError, s').
Proof.
  destruct (forward_channel_mismatch 0 (rnn_seq tanh sigmoid) rnn_gen
              (unit_layer 1 1) (input [1; 2; 1; 1]%nat) (state_of [0; 1])
              1 1 2 1 1 1)
    as (s' & Hrun & _).
  - apply unit_layer_ok.
  - apply input_in.
  - lia.
  - lia.
  - lia.
  - lia.
  - lia.
  - exists s'. unfold forward. exact Hrun.
Defined.

Lemma get_valid_patches_may_alias_witness :
  exists p,
    @get_valid_patches R 0 Gen (unit_layer 1 1) (input [2; 1; 2; 2]%nat)
      (state_of (repeat 0 8)) = (Ok p, state_of (repeat 0 8)) /\
    storage p = storage (input [2; 1; 2; 2]%nat).
Proof.
  destruct (get_valid_patches_may_alias 0 (unit_layer 1 1)
              (input [2; 1; 2; 2]%nat) (state_of (repeat 0 8)) 2 2 2)
    as (p & Hrun & Hst & _).
  - reflexivity.
  - reflexivity.
  - reflexivity.
  - lia.
  - lia.
  - lia.
  - exists p. split; assumption.
Defined.

End TorchReal.
